(** * The ESMTP client test script of the fr0g.ai Master Control Program

    A shallow embedding of
    [fr0g-ai-master-control/test-artifacts/test-esmtp-client.py]:
    the operation [send_test_email], which builds one MIME message and hands
    it to an SMTP server, and [main], which calls it for five hard-coded
    scenarios.

    The script is effectful: it prints, sleeps and talks to a mail server
    through [smtplib].  The embedding threads a [World] (the chronological
    trace of effects and the number of sockets that are open) through a small
    state-and-exception monad.

    What the Python libraries answer is not decided by the script, so it is
    an input of the model:
    - each call of [send_test_email] meets an [Env], which says for every
      library call of that attempt whether it returns or what it raises;
      [main] takes an oracle that gives the [Env] of its k-th call;
    - a library call returns or raises, and what it raises is an instance of
      Python's [Exception] class (OSError, SMTPException, UnicodeError, ...),
      the class named by the handler on line 43;
    - [print] and [time.sleep] return normally in [send_test_email] and
      [main]; [send_test_email_on] is the same call on a console whose
      prints may raise;
    - the text that [msg.as_string()] produces is the business of the
      [email] package: the [Env] supplies it for the message object that the
      script has built, and [generate] is the text that the package writes
      for such a message. *)

From Stdlib Require Import String Ascii List ZArith Bool Lia.
Import ListNotations.
Local Open Scope string_scope.
Local Open Scope Z_scope.

(** ** Python values used by the script *)

(** An instance of [Exception]; the script only ever formats it with
    [str(e)] inside an f-string. *)
Record Exception : Type := mkException { str : string }.

(** The result of evaluating a Python expression: a value, or a raised
    exception. *)
Inductive Exc (A : Type) : Type :=
| Ok (a : A)
| Raise (e : Exception).
Arguments Ok {A} a.
Arguments Raise {A} e.

(** The newline character of the escape [\n]. *)
Definition LF : string := String "010"%char EmptyString.

(** Python's [s * n] on strings. *)
Fixpoint str_mul (s : string) (n : nat) : string :=
  match n with
  | O => EmptyString
  | S k => s ++ str_mul s k
  end.

(** ** The MIME message object *)

(** Python text is held as the bytes of its UTF-8 encoding: a character
    outside ASCII shows as bytes of 128 and more. *)
Definition is_ascii_char (c : ascii) : bool := Nat.ltb (nat_of_ascii c) 128.

Fixpoint is_ascii (s : string) : bool :=
  match s with
  | EmptyString => true
  | String c s' => is_ascii_char c && is_ascii s'
  end.

(** The double quote, as a one-character text. *)
Definition DQ : string := String "034"%char EmptyString.

(** A part of a message: its own headers and its payload as stored. *)
Record MIMEPart : Type := mkPart {
  part_headers : list (string * string);
  part_payload : string
}.

(** Base64, as [binascii.b2a_base64] writes it without its final newline. *)
Definition base64_alphabet : string :=
  "ABCDEFGHIJKLMNOPQRSTUVWXYZabcdefghijklmnopqrstuvwxyz0123456789+/".

Definition base64_digit (n : nat) : string :=
  match String.get n base64_alphabet with
  | Some c => String c EmptyString
  | None => EmptyString
  end.

Fixpoint base64 (bytes : list nat) : string :=
  match bytes with
  | [] => EmptyString
  | a :: rest1 =>
      match rest1 with
      | [] =>
          base64_digit (a / 4) ++ base64_digit ((a mod 4) * 16) ++ "=="
      | b :: rest2 =>
          match rest2 with
          | [] =>
              base64_digit (a / 4) ++ base64_digit ((a mod 4) * 16 + b / 16) ++
              base64_digit ((b mod 16) * 4) ++ "="
          | c :: rest3 =>
              base64_digit (a / 4) ++ base64_digit ((a mod 4) * 16 + b / 16) ++
              base64_digit ((b mod 16) * 4 + c / 64) ++ base64_digit (c mod 64) ++
              base64 rest3
          end
      end
  end.

Fixpoint bytes_of (s : string) : list nat :=
  match s with
  | EmptyString => []
  | String c s' => nat_of_ascii c :: bytes_of s'
  end.

(** [email.base64mime.body_encode]: lines of 57 bytes, each encoded and
    ended by a newline. *)
Fixpoint body_encode_from (fuel : nat) (bytes : list nat) : string :=
  match fuel with
  | O => EmptyString
  | S fuel' =>
      match bytes with
      | [] => EmptyString
      | _ :: _ =>
          base64 (firstn 57 bytes) ++ String "010"%char EmptyString ++
          body_encode_from fuel' (skipn 57 bytes)
      end
  end.

Definition body_encode (s : string) : string :=
  body_encode_from (String.length s) (bytes_of s).

(** The part that [MIMEText(payload, subtype)] builds.  An ASCII text is
    stored as it is, with charset us-ascii and transfer encoding 7bit; any
    other text is stored base64-encoded, with charset utf-8. *)
Definition text_part (payload subtype : string) : MIMEPart :=
  if is_ascii payload then
    {| part_headers :=
         [ ("Content-Type", "text/" ++ subtype ++ "; charset=" ++ DQ ++ "us-ascii" ++ DQ);
           ("MIME-Version", "1.0");
           ("Content-Transfer-Encoding", "7bit") ];
       part_payload := payload |}
  else
    {| part_headers :=
         [ ("Content-Type", "text/" ++ subtype ++ "; charset=" ++ DQ ++ "utf-8" ++ DQ);
           ("MIME-Version", "1.0");
           ("Content-Transfer-Encoding", "base64") ];
       part_payload := body_encode payload |}.

(** An [email.message.Message]: its header list, in the order in which the
    headers were set, and the parts attached to it. *)
Record Message : Type := mkMessage {
  headers  : list (string * string);
  payloads : list MIMEPart
}.

(** [MIMEMultipart()] starts with the two headers that [MIMEBase] sets. *)
Definition new_multipart : Message :=
  {| headers := [("Content-Type", "multipart/mixed"); ("MIME-Version", "1.0")];
     payloads := [] |}.

(** [msg[name] = value]: appends the header, the value is stored as given. *)
Definition setitem (msg : Message) (name value : string) : Message :=
  {| headers := headers msg ++ [(name, value)]; payloads := payloads msg |}.

(** [msg.attach(part)]. *)
Definition attach (msg : Message) (part : MIMEPart) : Message :=
  {| headers := headers msg; payloads := payloads msg ++ [part] |}.

Definition lower_char (c : ascii) : ascii :=
  let n := nat_of_ascii c in
  if Nat.leb 65 n && Nat.leb n 90 then ascii_of_nat (n + 32) else c.

(** [name.lower()] on an ASCII name. *)
Fixpoint lower (s : string) : string :=
  match s with
  | EmptyString => EmptyString
  | String c s' => String (lower_char c) (lower s')
  end.

(** [msg[name]]: the value of the first header of that name, the case of
    the letters being ignored. *)
Fixpoint lookup_header (name : string) (hs : list (string * string)) : option string :=
  match hs with
  | [] => None
  | (n, v) :: rest =>
      if String.eqb (lower n) (lower name) then Some v else lookup_header name rest
  end.

Definition getitem (msg : Message) (name : string) : option string :=
  lookup_header name (headers msg).

(** ** The world the script acts on *)

(** How [smtplib.SMTP.sendmail] fails: the server refuses the sender, the
    recipient or the data and the session stays up ([Rejected]), or the
    session is lost and the library has closed the socket before raising
    ([Disconnected]). *)
Inductive SendFault : Type :=
| Rejected (e : Exception)
| Disconnected (e : Exception).

Definition fault_exception (f : SendFault) : Exception :=
  match f with
  | Rejected e => e
  | Disconnected e => e
  end.

(** One observable effect.  A library call is recorded with its arguments
    and with the exception it raised, if any. *)
Inductive event : Type :=
| Print (text : string)
| Sleep (secs : Z)
| SmtpConnect (host : string) (port : Z) (raised : option Exception)
| SmtpSendmail (from_addr : string) (to_addrs : list string) (msg : string)
               (raised : option SendFault)
| SmtpQuit (raised : option Exception).

Record World : Type := mkWorld {
  trace : list event;      (* effects so far, oldest first *)
  open_conns : nat         (* SMTP sockets currently open  *)
}.

Definition empty_world : World := {| trace := []; open_conns := 0 |}.

(** What the libraries answer during one call of [send_test_email]. *)
Record Env : Type := mkEnv {
  MIMEText_fault : string -> string -> option Exception;
  connect_fault  : string -> Z -> option Exception;
  as_string_result : Message -> Exc string;
  sendmail_fault : string -> list string -> string -> option SendFault;
  quit_fault : option Exception
}.

(** ** A state-and-exception monad

    An exception leaves the effects already performed in place. *)
Definition M (A : Type) : Type := World -> Exc A * World.

Definition ret {A : Type} (a : A) : M A := fun w => (Ok a, w).

Definition bind {A B : Type} (m : M A) (f : A -> M B) : M B :=
  fun w =>
    match m w with
    | (Ok a, w') => f a w'
    | (Raise e, w') => (Raise e, w')
    end.

Definition raise {A : Type} (e : Exception) : M A := fun w => (Raise e, w).

(** [try: body  except Exception as e: handler]. *)
Definition try_except {A : Type} (body : M A) (handler : Exception -> M A) : M A :=
  fun w =>
    match body w with
    | (Ok a, w') => (Ok a, w')
    | (Raise e, w') => handler e w'
    end.

Declare Scope py_scope.
Delimit Scope py_scope with py.
Notation "x <- c ;; k" := (bind c (fun x => k))
  (at level 100, c at next level, right associativity) : py_scope.
Notation "c ;; k" := (bind c (fun _ => k))
  (at level 100, right associativity) : py_scope.
Local Open Scope py_scope.

Definition emit (ev : event) : M unit :=
  fun w => (Ok tt, {| trace := trace w ++ [ev]; open_conns := open_conns w |}).

Definition print (text : string) : M unit := emit (Print text).

Definition sleep (secs : Z) : M unit := emit (Sleep secs).

(** ** The library calls of the script *)

Definition MIMEMultipart : M Message := ret new_multipart.

Definition MIMEText (env : Env) (payload subtype : string) : M MIMEPart :=
  match MIMEText_fault env payload subtype with
  | Some e => raise e
  | None => ret (text_part payload subtype)
  end.

Definition as_string (env : Env) (msg : Message) : M string :=
  match as_string_result env msg with
  | Ok text => ret text
  | Raise e => raise e
  end.

(** The calls on [smtplib] that the script makes. *)
Module smtplib.

(** The object returned by [smtplib.SMTP(host, port)]. *)
Record server : Type := mkServer { peer_host : string; peer_port : Z }.

(** [smtplib.SMTP(host, port)] with a host connects at once; a socket is
    open afterwards exactly when the call returned.  (With the empty text
    as host the real constructor returns without connecting; the script's
    default and [main] always name a host.) *)
Definition SMTP (env : Env) (host : string) (port : Z) : M server :=
  fun w =>
    match connect_fault env host port with
    | Some e =>
        (Raise e, {| trace := trace w ++ [SmtpConnect host port (Some e)];
                     open_conns := open_conns w |})
    | None =>
        (Ok (mkServer host port),
         {| trace := trace w ++ [SmtpConnect host port None];
            open_conns := S (open_conns w) |})
    end.

(** [server.set_debuglevel(level)] only stores the level. *)
Definition set_debuglevel (srv : server) (level : Z) : M unit := ret tt.

(** [server.sendmail(from_addr, to_addrs, msg)]. *)
Definition sendmail (env : Env) (srv : server) (from_addr : string)
    (to_addrs : list string) (msg : string) : M unit :=
  fun w =>
    let r := sendmail_fault env from_addr to_addrs msg in
    let tr := (trace w ++ [SmtpSendmail from_addr to_addrs msg r])%list in
    match r with
    | None => (Ok tt, {| trace := tr; open_conns := open_conns w |})
    | Some (Rejected e) => (Raise e, {| trace := tr; open_conns := open_conns w |})
    | Some (Disconnected e) =>
        (Raise e, {| trace := tr; open_conns := Nat.pred (open_conns w) |})
    end.

(** [server.quit()]: the library closes the socket whether or not the QUIT
    command itself went through. *)
Definition quit (env : Env) (srv : server) : M unit :=
  fun w =>
    let w' := {| trace := trace w ++ [SmtpQuit (quit_fault env)];
                 open_conns := Nat.pred (open_conns w) |} in
    match quit_fault env with
    | None => (Ok tt, w')
    | Some e => (Raise e, w')
    end.

End smtplib.

(** ** [send_test_email] (lines 12-45) *)

Definition default_smtp_host : string := "localhost".
Definition default_smtp_port : Z := 2525.

Definition send_test_email (env : Env) (smtp_host : string) (smtp_port : Z)
    (from_addr to_addr subject body test_name : string) : M bool :=
  print (LF ++ "TESTING " ++ test_name) ;;
  print ("   From: " ++ from_addr) ;;
  print ("   To: " ++ to_addr) ;;
  print ("   Subject: " ++ subject) ;;
  try_except
    ( msg <- MIMEMultipart ;;
      let msg := setitem msg "From" from_addr in
      let msg := setitem msg "To" to_addr in
      let msg := setitem msg "Subject" subject in
      part <- MIMEText env body "plain" ;;
      let msg := attach msg part in
      server <- smtplib.SMTP env smtp_host smtp_port ;;
      smtplib.set_debuglevel server 0 ;;
      text <- as_string env msg ;;
      smtplib.sendmail env server from_addr [to_addr] text ;;
      smtplib.quit env server ;;
      print "   COMPLETED Email sent successfully" ;;
      ret true )
    (fun e =>
      print ("   FAILED Failed to send email: " ++ str e) ;;
      ret false).

(** ** [main] (lines 47-109)

    [oracle k] is the environment met by the call number [k]. *)
Definition main (oracle : nat -> Env) : M unit :=
  print "SECURITY fr0g.ai ESMTP Threat Vector Interceptor Test Suite" ;;
  print (str_mul "=" 60) ;;
  send_test_email (oracle 0%nat) default_smtp_host default_smtp_port
    "ceo@company.com"
    "team@company.com"
    "Q4 Strategy Meeting"
    "Team, please join us for the Q4 strategy meeting on Friday at 2 PM."
    "Legitimate Business Email" ;;
  sleep 1 ;;
  send_test_email (oracle 1%nat) default_smtp_host default_smtp_port
    "newsletter@company.com"
    "subscriber@example.com"
    "Weekly Newsletter - AI Security Updates"
    "Welcome to our weekly newsletter featuring the latest in AI security research."
    "Newsletter Email" ;;
  sleep 1 ;;
  send_test_email (oracle 2%nat) default_smtp_host default_smtp_port
    "security@bank-fake.com"
    "customer@example.com"
    "URGENT: Account Security Alert"
    "Your account will be suspended in 24 hours unless you verify your credentials immediately. Click here: http://fake-bank-security.com/login"
    "Suspicious Phishing Email" ;;
  sleep 1 ;;
  send_test_email (oracle 3%nat) default_smtp_host default_smtp_port
    "admin@suspicious-domain.ru"
    "victim@company.com"
    "Invoice Attached - Please Review"
    "Please find attached invoice. Download and execute the file to view: http://malware-site.com/invoice.exe"
    "Malware Delivery Attempt" ;;
  sleep 1 ;;
  send_test_email (oracle 4%nat) default_smtp_host default_smtp_port
    "it-support@company-fake.com"
    "employee@company.com"
    "IT Security Update Required"
    "Your password expires today. Please update it immediately by clicking: http://fake-company-portal.com/update-password"
    "Social Engineering Attempt" ;;
  print (LF ++ "COMPLETED ESMTP Test Suite Completed!") ;;
  print (LF ++ "TIP Tips:") ;;
  print "   - Check MCP logs for threat analysis results" ;;
  print "   - Monitor AI community reviews for each email" ;;
  print "   - Watch for threat level classifications" ;;
  print "   - Observe pattern recognition in email content".

(** ** The catalogue and the loop form of [main]

    [main] spells its five calls out.  [catalogue] lists their arguments in
    call order, and [run_cases] is the loop that performs such calls for any
    list of cases, pausing between two consecutive ones as [main] does. *)

Record TestCase : Type := mkTestCase {
  tc_name : string;
  tc_from_address : string;
  tc_to_address : string;
  tc_subject : string;
  tc_body : string
}.

Record Endpoint : Type := mkEndpoint { ep_host : string; ep_port : Z }.

Definition default_endpoint : Endpoint :=
  {| ep_host := default_smtp_host; ep_port := default_smtp_port |}.

Definition valid_port (p : Z) : bool := (1 <=? p) && (p <=? 65535).

Definition catalogue : list TestCase :=
  [ {| tc_name := "Legitimate Business Email";
       tc_from_address := "ceo@company.com";
       tc_to_address := "team@company.com";
       tc_subject := "Q4 Strategy Meeting";
       tc_body := "Team, please join us for the Q4 strategy meeting on Friday at 2 PM." |};
    {| tc_name := "Newsletter Email";
       tc_from_address := "newsletter@company.com";
       tc_to_address := "subscriber@example.com";
       tc_subject := "Weekly Newsletter - AI Security Updates";
       tc_body := "Welcome to our weekly newsletter featuring the latest in AI security research." |};
    {| tc_name := "Suspicious Phishing Email";
       tc_from_address := "security@bank-fake.com";
       tc_to_address := "customer@example.com";
       tc_subject := "URGENT: Account Security Alert";
       tc_body := "Your account will be suspended in 24 hours unless you verify your credentials immediately. Click here: http://fake-bank-security.com/login" |};
    {| tc_name := "Malware Delivery Attempt";
       tc_from_address := "admin@suspicious-domain.ru";
       tc_to_address := "victim@company.com";
       tc_subject := "Invoice Attached - Please Review";
       tc_body := "Please find attached invoice. Download and execute the file to view: http://malware-site.com/invoice.exe" |};
    {| tc_name := "Social Engineering Attempt";
       tc_from_address := "it-support@company-fake.com";
       tc_to_address := "employee@company.com";
       tc_subject := "IT Security Update Required";
       tc_body := "Your password expires today. Please update it immediately by clicking: http://fake-company-portal.com/update-password" |} ].

(** One call of [send_test_email] for a case of the catalogue. *)
Definition submit (env : Env) (ep : Endpoint) (tc : TestCase) : M bool :=
  send_test_email env (ep_host ep) (ep_port ep)
    (tc_from_address tc) (tc_to_address tc) (tc_subject tc) (tc_body tc) (tc_name tc).

(** The calls of [main] as a loop; the call for the case at position [k]
    meets [oracle k], and its boolean result is dropped, as in [main]. *)
Fixpoint run_cases (oracle : nat -> Env) (ep : Endpoint) (k : nat)
    (cases : list TestCase) : M unit :=
  match cases with
  | [] => ret tt
  | tc :: rest =>
      submit (oracle k) ep tc ;;
      match rest with
      | [] => ret tt
      | _ :: _ => sleep 1 ;; run_cases oracle ep (S k) rest
      end
  end.

Definition banner : M unit :=
  print "SECURITY fr0g.ai ESMTP Threat Vector Interceptor Test Suite" ;;
  print (str_mul "=" 60).

Definition closing_lines : list string :=
  [ LF ++ "COMPLETED ESMTP Test Suite Completed!";
    LF ++ "TIP Tips:";
    "   - Check MCP logs for threat analysis results";
    "   - Monitor AI community reviews for each email";
    "   - Watch for threat level classifications";
    "   - Observe pattern recognition in email content" ].

(** ** Reading the output

    The script reports through the text it prints.  A print that starts a
    case is recognised by the text [\nTESTING ], an outcome by the two
    texts of lines 40 and 44. *)

Fixpoint strip_prefix (p s : string) : option string :=
  match p with
  | EmptyString => Some s
  | String a p' =>
      match s with
      | EmptyString => None
      | String b s' => if Ascii.eqb a b then strip_prefix p' s' else None
      end
  end.

Inductive report : Type :=
| Announced (name : string)       (* the TESTING line of a case *)
| Succeeded                       (* the COMPLETED line         *)
| Failed (error_detail : string). (* the FAILED line            *)

Definition classify (text : string) : option report :=
  match strip_prefix (LF ++ "TESTING ") text with
  | Some name => Some (Announced name)
  | None =>
      if String.eqb text "   COMPLETED Email sent successfully" then Some Succeeded
      else
        match strip_prefix "   FAILED " text with
        | Some detail => Some (Failed detail)
        | None => None
        end
  end.

Fixpoint reports (tr : list event) : list report :=
  match tr with
  | [] => []
  | Print text :: rest =>
      match classify text with
      | Some r => r :: reports rest
      | None => reports rest
      end
  | _ :: rest => reports rest
  end.

(** The library calls in a trace, prints and pauses left out. *)
Fixpoint net_events (tr : list event) : list event :=
  match tr with
  | [] => []
  | Print _ :: rest => net_events rest
  | Sleep _ :: rest => net_events rest
  | ev :: rest => ev :: net_events rest
  end.

(** The lines printed, in order. *)
Fixpoint stdout (tr : list event) : list string :=
  match tr with
  | [] => []
  | Print text :: rest => text :: stdout rest
  | _ :: rest => stdout rest
  end.

(** ** What one call does, read off an empty world *)

Definition case_run (env : Env) (ep : Endpoint) (tc : TestCase) : Exc bool * World :=
  submit env ep tc empty_world.

Definition case_trace (env : Env) (ep : Endpoint) (tc : TestCase) : list event :=
  trace (snd (case_run env ep tc)).

Definition case_leak (env : Env) (ep : Endpoint) (tc : TestCase) : nat :=
  open_conns (snd (case_run env ep tc)).

(** The world after further effects [evs] that left [n] more sockets open. *)
Definition advance (w : World) (evs : list event) (n : nat) : World :=
  {| trace := trace w ++ evs; open_conns := open_conns w + n |}.

(** The message that lines 25-29 build from the arguments. *)
Definition message_for (from_addr to_addr subject body : string) : Message :=
  attach
    (setitem (setitem (setitem new_multipart "From" from_addr) "To" to_addr)
       "Subject" subject)
    (text_part body "plain").

(** The exception that ends the [try] block, if one does: the first of the
    five library calls that can raise, in the order of lines 29-38. *)
Definition first_fault (env : Env) (smtp_host : string) (smtp_port : Z)
    (from_addr to_addr subject body : string) : option Exception :=
  match MIMEText_fault env body "plain" with
  | Some e => Some e
  | None =>
  match connect_fault env smtp_host smtp_port with
  | Some e => Some e
  | None =>
  match as_string_result env (message_for from_addr to_addr subject body) with
  | Raise e => Some e
  | Ok text =>
  match sendmail_fault env from_addr [to_addr] text with
  | Some f => Some (fault_exception f)
  | None => quit_fault env
  end end end end.

Definition case_fault (env : Env) (ep : Endpoint) (tc : TestCase) : option Exception :=
  first_fault env (ep_host ep) (ep_port ep)
    (tc_from_address tc) (tc_to_address tc) (tc_subject tc) (tc_body tc).

(** The text after [FAILED ] on line 44. *)
Definition failure_detail (e : Exception) : string :=
  "Failed to send email: " ++ str e.

(** The outcome line a case is expected to end with. *)
Definition outcome_report (env : Env) (ep : Endpoint) (tc : TestCase) : report :=
  match case_fault env ep tc with
  | None => Succeeded
  | Some e => Failed (failure_detail e)
  end.

(** For the cases from position [k] on: the announcement of each, followed
    by its outcome. *)
Fixpoint expected_reports (oracle : nat -> Env) (ep : Endpoint) (k : nat)
    (cases : list TestCase) : list report :=
  match cases with
  | [] => []
  | tc :: rest =>
      Announced (tc_name tc) :: outcome_report (oracle k) ep tc
        :: expected_reports oracle ep (S k) rest
  end.

(** The effects of [run_cases], case by case. *)
Fixpoint run_trace (oracle : nat -> Env) (ep : Endpoint) (k : nat)
    (cases : list TestCase) : list event :=
  match cases with
  | [] => []
  | tc :: rest =>
      case_trace (oracle k) ep tc ++
      match rest with
      | [] => []
      | _ :: _ => Sleep 1 :: run_trace oracle ep (S k) rest
      end
  end.

Fixpoint run_leak (oracle : nat -> Env) (ep : Endpoint) (k : nat)
    (cases : list TestCase) : nat :=
  match cases with
  | [] => 0
  | tc :: rest => case_leak (oracle k) ep tc + run_leak oracle ep (S k) rest
  end.

(** The names announced, the details of the failures reported, and the
    number of outcome lines among some reports. *)
Fixpoint announced (rs : list report) : list string :=
  match rs with
  | [] => []
  | Announced n :: rest => n :: announced rest
  | _ :: rest => announced rest
  end.

Fixpoint error_details (rs : list report) : list string :=
  match rs with
  | [] => []
  | Failed d :: rest => d :: error_details rest
  | _ :: rest => error_details rest
  end.

Fixpoint outcomes (rs : list report) : list bool :=
  match rs with
  | [] => []
  | Succeeded :: rest => true :: outcomes rest
  | Failed _ :: rest => false :: outcomes rest
  | Announced _ :: rest => outcomes rest
  end.

(** The envelopes handed to [sendmail]: sender and recipient list. *)
Fixpoint envelopes (tr : list event) : list (string * list string) :=
  match tr with
  | [] => []
  | SmtpSendmail f rcpts _ _ :: rest => (f, rcpts) :: envelopes rest
  | _ :: rest => envelopes rest
  end.

(** The endpoints of the connection attempts. *)
Fixpoint connect_attempts (tr : list event) : list (string * Z) :=
  match tr with
  | [] => []
  | SmtpConnect h p _ :: rest => (h, p) :: connect_attempts rest
  | _ :: rest => connect_attempts rest
  end.

(** Does this effect start a case? *)
Definition starts_case (ev : event) : bool :=
  match ev with
  | Print text =>
      match strip_prefix (LF ++ "TESTING ") text with
      | Some _ => true
      | None => false
      end
  | _ => false
  end.

(** A trace cut in front of every announcement: what precedes the first
    case, then one block of effects per case. *)
Fixpoint blocks (tr : list event) : list (list event) :=
  match tr with
  | [] => [[]]
  | ev :: rest =>
      match blocks rest with
      | [] => [[ev]]
      | b :: bs => if starts_case ev then [] :: (ev :: b) :: bs else (ev :: b) :: bs
      end
  end.

(** The oracle that meets [env] at position [i] and agrees with [oracle]
    elsewhere. *)
Definition override (oracle : nat -> Env) (i : nat) (env : Env) : nat -> Env :=
  fun k => if Nat.eqb k i then env else oracle k.

Definition nonempty (s : string) : bool :=
  match s with
  | EmptyString => false
  | String _ _ => true
  end.

Definition all_fields_nonempty (tc : TestCase) : bool :=
  nonempty (tc_name tc) && nonempty (tc_from_address tc) &&
  nonempty (tc_to_address tc) && nonempty (tc_subject tc) && nonempty (tc_body tc).

(** ** Sample environments *)

(** A plain rendering of a message, standing in for [as_string] in the
    sample environments: header lines, an empty line, the parts. *)
Fixpoint header_lines (hs : list (string * string)) : string :=
  match hs with
  | [] => EmptyString
  | (n, v) :: rest => n ++ ": " ++ v ++ LF ++ header_lines rest
  end.

Fixpoint part_lines (ps : list MIMEPart) : string :=
  match ps with
  | [] => EmptyString
  | p :: rest => part_payload p ++ LF ++ part_lines rest
  end.

Definition flat_text (msg : Message) : string :=
  header_lines (headers msg) ++ LF ++ part_lines (payloads msg).

(** A listener that accepts everything. *)
Definition cooperative : Env :=
  {| MIMEText_fault := fun _ _ => None;
     connect_fault := fun _ _ => None;
     as_string_result := fun msg => Ok (flat_text msg);
     sendmail_fault := fun _ _ _ => None;
     quit_fault := None |}.

(** Nothing listens on the port. *)
Definition refusing : Env :=
  {| MIMEText_fault := fun _ _ => None;
     connect_fault := fun _ _ => Some (mkException "[Errno 111] Connection refused");
     as_string_result := fun msg => Ok (flat_text msg);
     sendmail_fault := fun _ _ _ => None;
     quit_fault := None |}.

(** A listener that answers 550 to RCPT TO and keeps the session up. *)
Definition rejecting : Env :=
  {| MIMEText_fault := fun _ _ => None;
     connect_fault := fun _ _ => None;
     as_string_result := fun msg => Ok (flat_text msg);
     sendmail_fault := fun _ _ _ => Some (Rejected (mkException "(550, b'User unknown')"));
     quit_fault := None |}.

(** A transport that refuses port numbers outside 1..65535 and accepts
    everything else. *)
Definition port_checking : Env :=
  {| MIMEText_fault := fun _ _ => None;
     connect_fault := fun _ p =>
       if valid_port p then None
       else Some (mkException "connect(): port must be 0-65535.");
     as_string_result := fun msg => Ok (flat_text msg);
     sendmail_fault := fun _ _ _ => None;
     quit_fault := None |}.

Definition out_of_range_endpoint : Endpoint :=
  {| ep_host := "localhost"; ep_port := 70000 |}.

Definition phishing_case : TestCase :=
  {| tc_name := "Suspicious Phishing Email";
     tc_from_address := "security@bank-fake.com";
     tc_to_address := "customer@example.com";
     tc_subject := "URGENT: Account Security Alert";
     tc_body := "Your account will be suspended in 24 hours unless you verify your credentials immediately. Click here: http://fake-bank-security.com/login" |}.

(** The reading of the specification under which an invalid endpoint is
    fatal: with a port outside 1..65535 no case is announced and no
    connection is attempted. *)
Definition invalid_endpoint_halts_run (oracle : nat -> Env) (ep : Endpoint)
    (cases : list TestCase) : Prop :=
  valid_port (ep_port ep) = false ->
  announced (reports (trace (snd (run_cases oracle ep 0 cases empty_world)))) = [] /\
  connect_attempts (trace (snd (run_cases oracle ep 0 cases empty_world))) = [].

(** The six prints that end [main] (lines 104-109). *)
Definition closing : M unit :=
  print (LF ++ "COMPLETED ESMTP Test Suite Completed!") ;;
  print (LF ++ "TIP Tips:") ;;
  print "   - Check MCP logs for threat analysis results" ;;
  print "   - Monitor AI community reviews for each email" ;;
  print "   - Watch for threat level classifications" ;;
  print "   - Observe pattern recognition in email content".

Definition banner_lines : list string :=
  [ "SECURITY fr0g.ai ESMTP Threat Vector Interceptor Test Suite"; str_mul "=" 60 ].

(** The effects of [run_cases] grouped by case; the pause that follows a
    case is counted with it. *)
Fixpoint run_blocks (oracle : nat -> Env) (ep : Endpoint) (k : nat)
    (cases : list TestCase) : list (list event) :=
  match cases with
  | [] => []
  | tc :: rest =>
      (case_trace (oracle k) ep tc ++
       match rest with
       | [] => []
       | _ :: _ => [Sleep 1]
       end)%list :: run_blocks oracle ep (S k) rest
  end.

(** No effect of [tr] starts a case. *)
Definition quiet (tr : list event) : bool :=
  forallb (fun ev => negb (starts_case ev)) tr.

(** [bs] with [tail] added at the end of its last block. *)
Fixpoint extend_last (tail : list event) (bs : list (list event)) : list (list event) :=
  match bs with
  | [] => []
  | b :: rest =>
      match rest with
      | [] => [(b ++ tail)%list]
      | _ :: _ => b :: extend_last tail rest
      end
  end.

(** ** Further readers and sample environments *)

(** The four prints that open a call (lines 18-21). *)
Definition header_block (from_addr to_addr subject test_name : string) : list event :=
  [ Print (LF ++ "TESTING " ++ test_name);
    Print ("   From: " ++ from_addr);
    Print ("   To: " ++ to_addr);
    Print ("   Subject: " ++ subject) ].

(** The text of the print that closes a call (line 40 or line 44). *)
Definition outcome_line (fault : option Exception) : string :=
  match fault with
  | None => "   COMPLETED Email sent successfully"
  | Some e => "   FAILED Failed to send email: " ++ str e
  end.

(** The pauses in a trace, in seconds. *)
Fixpoint pauses (tr : list event) : list Z :=
  match tr with
  | [] => []
  | Sleep secs :: rest => secs :: pauses rest
  | _ :: rest => pauses rest
  end.

(** The [quit] calls in a trace. *)
Fixpoint quits (tr : list event) : list (option Exception) :=
  match tr with
  | [] => []
  | SmtpQuit r :: rest => r :: quits rest
  | _ :: rest => quits rest
  end.

(** The order in which one SMTP session may use the library: a connection
    attempt; if it returned, at most one [sendmail]; if that returned, one
    [quit].  Nothing follows a call that raised. *)
Definition well_sequenced (evs : list event) : bool :=
  match evs with
  | [] => true
  | [SmtpConnect _ _ _] => true
  | [SmtpConnect _ _ None; SmtpSendmail _ _ _ (Some _)] => true
  | [SmtpConnect _ _ None; SmtpSendmail _ _ _ None; SmtpQuit _] => true
  | _ => false
  end.

(** A listener that takes the message and then drops the session, so that
    QUIT gets no answer. *)
Definition hanging_up : Env :=
  {| MIMEText_fault := fun _ _ => None;
     connect_fault := fun _ _ => None;
     as_string_result := fun msg => Ok (flat_text msg);
     sendmail_fault := fun _ _ _ => None;
     quit_fault := Some (mkException "Connection unexpectedly closed") |}.

(** A listener that accepts everything, met by a message that the [email]
    package refuses to write out. *)
Definition unserialisable : Env :=
  {| MIMEText_fault := fun _ _ => None;
     connect_fault := fun _ _ => None;
     as_string_result := fun _ => Raise (mkException "header value cannot be written");
     sendmail_fault := fun _ _ _ => None;
     quit_fault := None |}.

(** The envelope that a case asks for. *)
Definition envelope_of (tc : TestCase) : string * list string :=
  (tc_from_address tc, [tc_to_address tc]).

(** ** The text of a message, written and read back

    [msg.as_string()] and the accessors of a parsed message belong to the
    [email] package.  The definitions below follow that package (policy
    compat32, the default of the classes the script uses) for the messages
    the script can build: a multipart container with one text part, header
    names as on lines 26-28, header values that are printable ASCII and do
    not end with a blank. *)

Definition CR_char : ascii := "013"%char.
Definition LF_char : ascii := "010"%char.

(** [ls] joined by newlines. *)
Fixpoint join_lines (ls : list string) : string :=
  match ls with
  | [] => EmptyString
  | l :: rest =>
      match rest with
      | [] => l
      | _ :: _ => l ++ LF ++ join_lines rest
      end
  end.

(** The lines of a text; a line ends at \n, at \r or at \r\n.
    [after_cr] says that the character before was a \r. *)
Fixpoint split_lines_from (after_cr : bool) (s : string) : list string :=
  match s with
  | EmptyString => [EmptyString]
  | String c s' =>
      if Ascii.eqb c LF_char then
        if after_cr then split_lines_from false s'
        else EmptyString :: split_lines_from false s'
      else if Ascii.eqb c CR_char then EmptyString :: split_lines_from true s'
      else
        match split_lines_from false s' with
        | l :: ls => String c l :: ls
        | [] => [String c EmptyString]
        end
  end.

Definition split_lines (s : string) : list string := split_lines_from false s.

(** The header line that the generator writes. *)
Definition render_header (h : string * string) : string :=
  fst h ++ ": " ++ snd h.

(** Writing a multipart message gives it a boundary: the parameter is added
    to its Content-Type header. *)
Definition with_boundary (boundary : string) (hs : list (string * string))
    : list (string * string) :=
  map (fun h =>
         if String.eqb (lower (fst h)) "content-type"
         then (fst h, snd h ++ "; boundary=" ++ DQ ++ boundary ++ DQ)
         else h) hs.

Definition render_part (boundary : string) (p : MIMEPart) : list string :=
  ((("--" ++ boundary)%string :: map render_header (part_headers p)) ++
   EmptyString :: split_lines (part_payload p))%list.

(** The text of [msg.as_string()] for a multipart message, with the boundary
    that the generator has drawn. *)
Definition generate (boundary : string) (msg : Message) : string :=
  join_lines
    (map render_header (with_boundary boundary (headers msg)) ++
     EmptyString :: flat_map (render_part boundary) (payloads msg) ++
     [ ("--" ++ boundary ++ "--")%string; EmptyString ])%list.

Definition is_blank (c : ascii) : bool :=
  Ascii.eqb c " "%char || Ascii.eqb c "009"%char.

Fixpoint lstrip (s : string) : string :=
  match s with
  | EmptyString => EmptyString
  | String c s' => if is_blank c then lstrip s' else s
  end.

Fixpoint all_blank (s : string) : bool :=
  match s with
  | EmptyString => true
  | String c s' => is_blank c && all_blank s'
  end.

Definition starts_blank (s : string) : bool :=
  match s with
  | EmptyString => false
  | String c _ => is_blank c
  end.

(** A character of a header name: printable, neither blank nor colon. *)
Definition name_char (c : ascii) : bool :=
  let n := nat_of_ascii c in
  Nat.leb 33 n && Nat.leb n 126 && negb (Nat.eqb n 58).

(** A header line cut at its first colon. *)
Fixpoint split_header (l : string) : option (string * string) :=
  match l with
  | EmptyString => None
  | String c l' =>
      if Ascii.eqb c ":"%char then Some (EmptyString, l')
      else if name_char c then
        match split_header l' with
        | Some (n, v) => Some (String c n, v)
        | None => None
        end
      else None
  end.

Definition flush (cur : option (string * string)) : list (string * string) :=
  match cur with
  | Some h => [h]
  | None => []
  end.

(** The header block of a list of lines, and the lines after the empty line
    that ends it.  A line that starts with a blank continues the header
    before it; the value of a header loses its leading blanks. *)
Fixpoint parse_headers_from (cur : option (string * string)) (ls : list string)
    : list (string * string) * list string :=
  match ls with
  | [] => (flush cur, [])
  | l :: rest =>
      if starts_blank l then
        match cur with
        | Some (n, v) => parse_headers_from (Some (n, v ++ LF ++ l)) rest
        | None => ([], ls)
        end
      else
        match split_header l with
        | Some (n, v) =>
            let (hs, body) := parse_headers_from (Some (n, lstrip v)) rest in
            ((flush cur ++ hs)%list, body)
        | None =>
            (flush cur, match l with EmptyString => rest | String _ _ => ls end)
        end
  end.

Definition parse_headers (ls : list string) : list (string * string) * list string :=
  parse_headers_from None ls.

(** Is [l] a boundary line?  [Some false] opens a part, [Some true] closes
    the message; blanks may follow the marker. *)
Definition boundary_line (boundary l : string) : option bool :=
  match strip_prefix ("--" ++ boundary) l with
  | None => None
  | Some rest =>
      match strip_prefix "--" rest with
      | Some rest' =>
          if all_blank rest' then Some true
          else if all_blank rest then Some false else None
      | None => if all_blank rest then Some false else None
      end
  end.

(** The lines after the first opening boundary. *)
Fixpoint skip_preamble (boundary : string) (ls : list string) : option (list string) :=
  match ls with
  | [] => None
  | l :: rest =>
      match boundary_line boundary l with
      | Some false => Some rest
      | Some true => Some []
      | None => skip_preamble boundary rest
      end
  end.

(** The lines of each part, up to the closing boundary. *)
Fixpoint collect_parts (boundary : string) (cur : list string) (ls : list string)
    : list (list string) :=
  match ls with
  | [] => [cur]
  | l :: rest =>
      match boundary_line boundary l with
      | Some false => cur :: collect_parts boundary [] rest
      | Some true => [cur]
      | None => collect_parts boundary (cur ++ [l])%list rest
      end
  end.

Definition parse_part (ls : list string) : MIMEPart :=
  let (hs, body) := parse_headers ls in
  {| part_headers := hs; part_payload := join_lines body |}.

(** A text without its last character, when that is a double quote. *)
Fixpoint drop_closing_quote (s : string) : option string :=
  match s with
  | EmptyString => None
  | String c s' =>
      match s' with
      | EmptyString => if Ascii.eqb c "034"%char then Some EmptyString else None
      | String _ _ =>
          match drop_closing_quote s' with
          | Some r => Some (String c r)
          | None => None
          end
      end
  end.

(** The boundary parameter, as the generator has written it. *)
Definition boundary_of (hs : list (string * string)) : option string :=
  match lookup_header "Content-Type" hs with
  | None => None
  | Some v =>
      match strip_prefix ("multipart/mixed; boundary=" ++ DQ) v with
      | Some r => drop_closing_quote r
      | None => None
      end
  end.

(** [email.message_from_string(text)] for a multipart text. *)
Definition message_from_string (text : string) : option Message :=
  let (hs, body) := parse_headers (split_lines text) in
  match boundary_of hs with
  | None => None
  | Some boundary =>
      match skip_preamble boundary body with
      | None => None
      | Some after =>
          Some {| headers := hs;
                  payloads := map parse_part (collect_parts boundary [] after) |}
      end
  end.

(** The four fields as a receiver reads them from the text: the From, To and
    Subject headers and the payload of the only part. *)
Definition read_back (text : string) : option (string * string * string * string) :=
  match message_from_string text with
  | None => None
  | Some msg =>
      match getitem msg "From", getitem msg "To", getitem msg "Subject", payloads msg with
      | Some f, Some t, Some s, [p] => Some (f, t, s, part_payload p)
      | _, _, _, _ => None
      end
  end.

(** Printable ASCII. *)
Definition printable_char (c : ascii) : bool :=
  Nat.leb 32 (nat_of_ascii c) && Nat.leb (nat_of_ascii c) 126.

Fixpoint printable (s : string) : bool :=
  match s with
  | EmptyString => true
  | String c s' => printable_char c && printable s'
  end.

Fixpoint ends_blank (s : string) : bool :=
  match s with
  | EmptyString => false
  | String c s' =>
      match s' with
      | EmptyString => is_blank c
      | String _ _ => ends_blank s'
      end
  end.

(** A header value that the package writes and reads back as it is:
    printable ASCII with no blank at either end. *)
Definition plain_header (v : string) : bool :=
  printable v && negb (starts_blank v) && negb (ends_blank v).

Fixpoint no_CR (s : string) : bool :=
  match s with
  | EmptyString => true
  | String c s' => negb (Ascii.eqb c CR_char) && no_CR s'
  end.

(** A body that the package writes and reads back as it is: ASCII without
    carriage returns. *)
Definition plain_body (body : string) : bool := is_ascii body && no_CR body.

(** A boundary as the generator draws them: equal signs and digits. *)
Definition boundary_char (c : ascii) : bool :=
  Ascii.eqb c "="%char ||
  (Nat.leb 48 (nat_of_ascii c) && Nat.leb (nat_of_ascii c) 57).

Fixpoint boundary_text (s : string) : bool :=
  match s with
  | EmptyString => true
  | String c s' => boundary_char c && boundary_text s'
  end.

(** No line of [body] is a boundary line; the generator draws its boundary
    anew until this holds. *)
Definition fresh (boundary body : string) : bool :=
  forallb (fun l => match boundary_line boundary l with
                    | None => true
                    | Some _ => false
                    end) (split_lines body).

(** A listener that accepts everything, behind the generator of the [email]
    package drawing [boundary]. *)
Definition rendering (boundary : string) : Env :=
  {| MIMEText_fault := fun _ _ => None;
     connect_fault := fun _ _ => None;
     as_string_result := fun msg => Ok (generate boundary msg);
     sendmail_fault := fun _ _ _ => None;
     quit_fault := None |}.

Definition sample_boundary : string := "===============7330845974216740156==".

(** The texts handed to [sendmail]. *)
Fixpoint payloads_sent (tr : list event) : list string :=
  match tr with
  | [] => []
  | SmtpSendmail _ _ text _ :: rest => text :: payloads_sent rest
  | _ :: rest => payloads_sent rest
  end.

(** The lines of the text that the generator writes for the message of a
    case with an ASCII body: the fields stand in it as they are. *)
Definition plain_text_lines (boundary from_addr to_addr subject body : string)
    : list string :=
  ([ ("Content-Type: multipart/mixed; boundary=" ++ DQ ++ boundary ++ DQ)%string;
     "MIME-Version: 1.0"%string;
     ("From: " ++ from_addr)%string;
     ("To: " ++ to_addr)%string;
     ("Subject: " ++ subject)%string;
     EmptyString;
     ("--" ++ boundary)%string;
     ("Content-Type: text/plain; charset=" ++ DQ ++ "us-ascii" ++ DQ)%string;
     "MIME-Version: 1.0"%string;
     "Content-Transfer-Encoding: 7bit"%string;
     EmptyString ] ++
   split_lines body ++
   [ ("--" ++ boundary ++ "--")%string; EmptyString ])%list.

(** The reading of the specification under which rendering preserves the
    content: what is handed to [sendmail] reads back as the four fields of
    the case. *)
Definition content_preserved (env : Env) (ep : Endpoint) (tc : TestCase) : Prop :=
  forall text,
    In text (payloads_sent (case_trace env ep tc)) ->
    read_back text =
    Some (tc_from_address tc, tc_to_address tc, tc_subject tc, tc_body tc).

(** The phishing case with a blank in front of its subject, and with an
    accented letter in its body. *)
Definition blank_subject_case : TestCase :=
  {| tc_name := "Suspicious Phishing Email";
     tc_from_address := "security@bank-fake.com";
     tc_to_address := "customer@example.com";
     tc_subject := " URGENT: Account Security Alert";
     tc_body := "Click here: http://fake-bank-security.com/login" |}.

Definition e_acute : string := String "195"%char (String "169"%char EmptyString).

Definition accented_body_case : TestCase :=
  {| tc_name := "Suspicious Phishing Email";
     tc_from_address := "security@bank-fake.com";
     tc_to_address := "customer@example.com";
     tc_subject := "URGENT: Account Security Alert";
     tc_body := "R" ++ e_acute ++ "ponse requise" |}.

(** ** A console that may fail

    [print] above always returns.  The real one writes to [sys.stdout] and
    raises when the text cannot be encoded or the stream is gone.  A
    [Console] says, for each text, whether printing it raises;
    [send_test_email_on] is [send_test_email] on such a console. *)
Definition Console : Type := string -> option Exception.

Definition print_on (console : Console) (text : string) : M unit :=
  match console text with
  | Some e => raise e
  | None => print text
  end.

Definition send_test_email_on (console : Console) (env : Env)
    (smtp_host : string) (smtp_port : Z)
    (from_addr to_addr subject body test_name : string) : M bool :=
  print_on console (LF ++ "TESTING " ++ test_name) ;;
  print_on console ("   From: " ++ from_addr) ;;
  print_on console ("   To: " ++ to_addr) ;;
  print_on console ("   Subject: " ++ subject) ;;
  try_except
    ( msg <- MIMEMultipart ;;
      let msg := setitem msg "From" from_addr in
      let msg := setitem msg "To" to_addr in
      let msg := setitem msg "Subject" subject in
      part <- MIMEText env body "plain" ;;
      let msg := attach msg part in
      server <- smtplib.SMTP env smtp_host smtp_port ;;
      smtplib.set_debuglevel server 0 ;;
      text <- as_string env msg ;;
      smtplib.sendmail env server from_addr [to_addr] text ;;
      smtplib.quit env server ;;
      print_on console "   COMPLETED Email sent successfully" ;;
      ret true )
    (fun e =>
      print_on console ("   FAILED Failed to send email: " ++ str e) ;;
      ret false).

(** A console that never fails, and one whose encoding is ASCII. *)
Definition working_console : Console := fun _ => None.



(** A text that holds no line break. *)
Fixpoint line_free (s : string) : bool :=
  match s with
  | EmptyString => true
  | String c s' =>
      negb (Ascii.eqb c LF_char) && negb (Ascii.eqb c CR_char) && line_free s'
  end.

(** A header that the parser reads as one header line: a non-empty name of
    name characters, a value that holds no line break and starts with no
    blank. *)
Definition header_ok (h : string * string) : bool :=
  match fst h with
  | EmptyString => false
  | String _ _ => true
  end &&
  (fix names (s : string) : bool :=
     match s with
     | EmptyString => true
     | String c s' => name_char c && names s'
     end) (fst h) &&
  negb (starts_blank (snd h)).

(** * Properties *)

Local Open Scope list_scope.

(** Unfolds one call down to the answers of the environment, and splits on
    those answers in the order in which the script asks for them. *)
Ltac unfold_script :=
  unfold case_trace, case_leak, case_fault; unfold case_run;
  unfold submit, send_test_email, first_fault, message_for, try_except,
    bind, print, emit, MIMEMultipart,
    MIMEText, as_string, smtplib.SMTP, smtplib.set_debuglevel,
    smtplib.sendmail, smtplib.quit, ret, raise, advance.

Ltac split_stages env :=
  repeat match goal with
  | |- context [MIMEText_fault env ?b ?s] =>
      destruct (MIMEText_fault env b s) eqn:?
  | |- context [connect_fault env ?h ?p] =>
      destruct (connect_fault env h p) eqn:?
  | |- context [as_string_result env ?m] =>
      destruct (as_string_result env m) eqn:?
  | |- context [sendmail_fault env ?f ?r ?t] =>
      destruct (sendmail_fault env f r t) as [[?|?]|] eqn:?
  | |- context [quit_fault env] =>
      destruct (quit_fault env) eqn:?
  end.

(** Decides a membership hypothesis in an explicit list of effects. *)
Ltac pick_event :=
  repeat match goal with
  | H : _ \/ _ |- _ => destruct H as [H|H]
  | H : False |- _ => destruct H
  | H : Print _ = _ |- _ => discriminate H
  | H : SmtpConnect _ _ _ = _ |- _ => discriminate H
  | H : SmtpQuit _ = _ |- _ => discriminate H
  | H : SmtpSendmail _ _ _ _ = _ |- _ => injection H as <- <- <- <-
  end.

(** ** Readers of a trace distribute over concatenation *)

Lemma reports_app tr1 tr2 : reports (tr1 ++ tr2) = reports tr1 ++ reports tr2.
Proof.
  induction tr1 as [|ev tr1 IH]; [reflexivity|].
  destruct ev; cbn [app reports]; try exact IH.
  destruct (classify text); [cbn; f_equal|]; exact IH.
Qed.

Lemma net_events_app tr1 tr2 : net_events (tr1 ++ tr2) = net_events tr1 ++ net_events tr2.
Proof.
  induction tr1 as [|ev tr1 IH]; [reflexivity|].
  destruct ev; cbn [app net_events]; rewrite IH; reflexivity.
Qed.

Lemma connect_attempts_app tr1 tr2 :
  connect_attempts (tr1 ++ tr2) = connect_attempts tr1 ++ connect_attempts tr2.
Proof.
  induction tr1 as [|ev tr1 IH]; [reflexivity|].
  destruct ev; cbn [app connect_attempts]; rewrite IH; reflexivity.
Qed.

Lemma banner_reports : reports (map Print banner_lines) = [].
Proof. reflexivity. Qed.

Lemma closing_reports : reports (map Print closing_lines) = [].
Proof. reflexivity. Qed.

Create Rewrite HintDb trace_readers.
#[local] Hint Rewrite reports_app net_events_app connect_attempts_app
  banner_reports closing_reports app_nil_r : trace_readers.

Lemma advance_advance w evs1 n1 evs2 n2 :
  advance (advance w evs1 n1) evs2 n2 = advance w (evs1 ++ evs2) (n1 + n2).
Proof.
  unfold advance; cbn. f_equal; [symmetry; apply app_assoc | lia].
Qed.

Lemma advance_nothing w : advance w [] 0 = w.
Proof.
  destruct w as [tr n]. unfold advance; cbn.
  rewrite app_nil_r, Nat.add_0_r. reflexivity.
Qed.

(** ** One call *)

(** A call adds its effects to those of the world it starts in; what it
    adds and what it returns do not depend on that world. *)
Lemma send_test_email_frame env h p f t s b n w :
  send_test_email env h p f t s b n w =
  (fst (send_test_email env h p f t s b n empty_world),
   advance w (trace (snd (send_test_email env h p f t s b n empty_world)))
             (open_conns (snd (send_test_email env h p f t s b n empty_world)))).
Proof.
  unfold_script. cbn.
  split_stages env; cbn; f_equal; f_equal.
  all: try (rewrite <- !app_assoc; reflexivity).
  all: try lia.
Qed.

Lemma send_test_email_result env h p f t s b n :
  fst (send_test_email env h p f t s b n empty_world) =
  Ok (match first_fault env h p f t s b with None => true | Some _ => false end).
Proof. unfold_script. cbn. split_stages env; reflexivity. Qed.

Lemma submit_frame env ep tc w :
  submit env ep tc w =
  (fst (case_run env ep tc), advance w (case_trace env ep tc) (case_leak env ep tc)).
Proof. unfold submit, case_run, case_trace, case_leak. apply send_test_email_frame. Qed.

Lemma case_run_result env ep tc :
  fst (case_run env ep tc) =
  Ok (match case_fault env ep tc with None => true | Some _ => false end).
Proof. apply send_test_email_result. Qed.

Lemma strip_prefix_app p s : strip_prefix p (p ++ s) = Some s.
Proof.
  induction p as [|a p IH]; cbn; [reflexivity|].
  rewrite Ascii.eqb_refl. exact IH.
Qed.

Lemma classify_announcement n : classify (LF ++ "TESTING " ++ n) = Some (Announced n).
Proof. reflexivity. Qed.

Lemma classify_failure e :
  classify ("   FAILED Failed to send email: " ++ str e) = Some (Failed (failure_detail e)).
Proof. reflexivity. Qed.

Lemma case_reports env ep tc :
  reports (case_trace env ep tc) = [Announced (tc_name tc); outcome_report env ep tc].
Proof.
  destruct ep as [h p], tc as [n f t s b].
  unfold outcome_report. unfold_script. cbn.
  split_stages env; reflexivity.
Qed.

Lemma case_trace_shape env ep tc :
  exists body,
    case_trace env ep tc = Print (LF ++ "TESTING " ++ tc_name tc) :: body /\
    quiet body = true.
Proof.
  destruct ep as [h p], tc as [n f t s b].
  unfold_script. cbn.
  split_stages env; eexists; (split; reflexivity).
Qed.

Lemma case_connects env ep tc :
  connect_attempts (case_trace env ep tc) =
  match MIMEText_fault env (tc_body tc) "plain" with
  | None => [(ep_host ep, ep_port ep)]
  | Some _ => []
  end.
Proof.
  destruct ep as [h p], tc as [n f t s b].
  unfold_script. cbn. split_stages env; reflexivity.
Qed.

(** The two ways in which a call returns with its socket still open: the
    connection is up and then [as_string] raises, or [sendmail] raises on a
    refusal.  Neither path reaches line 38. *)
Lemma case_leak_paths env ep tc :
  case_leak env ep tc =
  match MIMEText_fault env (tc_body tc) "plain",
        connect_fault env (ep_host ep) (ep_port ep) with
  | None, None =>
      match as_string_result env
              (message_for (tc_from_address tc) (tc_to_address tc)
                 (tc_subject tc) (tc_body tc)) with
      | Raise _ => 1%nat
      | Ok text =>
          match sendmail_fault env (tc_from_address tc) [tc_to_address tc] text with
          | Some (Rejected _) => 1%nat
          | _ => 0%nat
          end
      end
  | _, _ => 0%nat
  end.
Proof.
  destruct ep as [h p], tc as [n f t s b].
  unfold_script. cbn. split_stages env; reflexivity.
Qed.

(** ** Cutting a trace into cases *)

Lemma blocks_quiet_app pre rest :
  quiet pre = true ->
  blocks (pre ++ rest) = (pre ++ hd [] (blocks rest)) :: tl (blocks rest).
Proof.
  induction pre as [|ev pre IH]; intros Hq.
  - cbn. destruct rest as [|ev rest]; [reflexivity|].
    cbn. destruct (blocks rest); [reflexivity|]. destruct (starts_case ev); reflexivity.
  - cbn in Hq. apply andb_prop in Hq. destruct Hq as [Hev Hpre].
    apply negb_true_iff in Hev.
    cbn [app blocks]. rewrite (IH Hpre), Hev. reflexivity.
Qed.

Lemma blocks_quiet tr : quiet tr = true -> blocks tr = [tr].
Proof.
  intros Hq. rewrite <- (app_nil_r tr) at 1.
  rewrite (blocks_quiet_app _ _ Hq). cbn. rewrite app_nil_r. reflexivity.
Qed.

Lemma blocks_inhabited tr : exists b bs, blocks tr = b :: bs.
Proof.
  destruct tr as [|ev tr]; cbn; [eauto|].
  destruct (blocks tr); [eauto|]. destruct (starts_case ev); eauto.
Qed.

(** Effects that start no case fall into the last block. *)
Lemma blocks_app_quiet tr tail :
  quiet tail = true -> blocks (tr ++ tail) = extend_last tail (blocks tr).
Proof.
  intros Hq. induction tr as [|ev tr IH].
  - cbn. apply blocks_quiet. exact Hq.
  - cbn [app blocks]. rewrite IH.
    destruct (blocks_inhabited tr) as (b0 & bs0 & ->).
    destruct bs0 as [|b1 bs1]; destruct (starts_case ev); reflexivity.
Qed.

Lemma nth_error_extend_last tail bs :
  forall j,
    nth_error (extend_last tail bs) j =
    option_map (fun b => if Nat.eqb (S j) (length bs) then b ++ tail else b)
      (nth_error bs j).
Proof.
  induction bs as [|b rest IH]; intros j.
  - destruct j; reflexivity.
  - destruct rest as [|b' rest'].
    + destruct j as [|[|j]]; reflexivity.
    + destruct j as [|j].
      * reflexivity.
      * change (nth_error (extend_last tail (b' :: rest')) j =
                option_map
                  (fun x => if Nat.eqb (S j) (length (b' :: rest')) then x ++ tail else x)
                  (nth_error (b' :: rest') j)).
        apply IH.
Qed.

(** ** The loop *)

Section Loop.

Variable oracle : nat -> Env.
Variable ep : Endpoint.

Lemma run_cases_frame cases :
  forall k w,
    run_cases oracle ep k cases w =
    (Ok tt, advance w (run_trace oracle ep k cases) (run_leak oracle ep k cases)).
Proof.
  induction cases as [|tc rest IH]; intros k w.
  - cbn. rewrite advance_nothing. reflexivity.
  - cbn [run_cases run_trace run_leak]. unfold bind at 1.
    rewrite submit_frame, case_run_result. cbn [fst].
    destruct rest as [|tc' rest'].
    + cbn. rewrite app_nil_r, Nat.add_0_r. reflexivity.
    + unfold bind at 1. unfold sleep, emit.
      rewrite IH. unfold advance. cbn [trace open_conns].
      f_equal. f_equal; [|lia].
      rewrite <- !app_assoc. reflexivity.
Qed.

Lemma run_trace_reports cases :
  forall k, reports (run_trace oracle ep k cases) = expected_reports oracle ep k cases.
Proof.
  induction cases as [|tc rest IH]; intros k; [reflexivity|].
  cbn [run_trace expected_reports].
  rewrite reports_app, case_reports. cbn [app]. f_equal. f_equal.
  destruct rest as [|tc' rest']; [reflexivity|].
  cbn [reports]. apply IH.
Qed.

Lemma expected_reports_outcomes cases :
  forall k, length (outcomes (expected_reports oracle ep k cases)) = length cases.
Proof.
  induction cases as [|tc rest IH]; intros k; [reflexivity|].
  cbn [expected_reports outcomes]. unfold outcome_report.
  destruct (case_fault (oracle k) ep tc); cbn [outcomes length]; rewrite IH; reflexivity.
Qed.

Lemma expected_reports_announced cases :
  forall k, announced (expected_reports oracle ep k cases) = map tc_name cases.
Proof.
  induction cases as [|tc rest IH]; intros k; [reflexivity|].
  cbn [expected_reports announced map]. unfold outcome_report.
  destruct (case_fault (oracle k) ep tc); cbn [announced]; rewrite IH; reflexivity.
Qed.

Lemma run_trace_connects cases :
  forall k hp,
    In hp (connect_attempts (run_trace oracle ep k cases)) ->
    hp = (ep_host ep, ep_port ep).
Proof.
  induction cases as [|tc rest IH]; intros k hp Hin; [destruct Hin|].
  cbn [run_trace] in Hin. rewrite connect_attempts_app, case_connects in Hin.
  apply in_app_or in Hin. destruct Hin as [Hin|Hin].
  - destruct (MIMEText_fault (oracle k) (tc_body tc) "plain"); [destruct Hin|].
    destruct Hin as [<-|[]]. reflexivity.
  - destruct rest as [|tc' rest']; [destruct Hin|].
    cbn [connect_attempts] in Hin. apply (IH (S k)). exact Hin.
Qed.

Lemma run_trace_blocks cases :
  forall k, blocks (run_trace oracle ep k cases) = [] :: run_blocks oracle ep k cases.
Proof.
  induction cases as [|tc rest IH]; intros k; [reflexivity|].
  cbn [run_trace run_blocks].
  destruct (case_trace_shape (oracle k) ep tc) as (body & -> & Hq).
  cbn [app blocks].
  rewrite (blocks_quiet_app _ _ Hq).
  change (starts_case (Print (LF ++ "TESTING " ++ tc_name tc))) with true.
  cbv iota.
  destruct rest as [|tc' rest'].
  - reflexivity.
  - cbn [blocks starts_case]. rewrite IH. cbn [hd tl]. reflexivity.
Qed.

Lemma run_blocks_length cases :
  forall k, length (run_blocks oracle ep k cases) = length cases.
Proof.
  induction cases as [|tc rest IH]; intros k; [reflexivity|].
  cbn [run_blocks length]. rewrite IH. reflexivity.
Qed.

Lemma run_blocks_announce cases :
  forall k j tc,
    nth_error cases j = Some tc ->
    exists rest,
      nth_error (run_blocks oracle ep k cases) j =
      Some (Print (LF ++ "TESTING " ++ tc_name tc) :: rest).
Proof.
  induction cases as [|tc0 rest0 IH]; intros k j tc Hj.
  - destruct j; discriminate.
  - destruct j as [|j].
    + injection Hj as <-. cbn [run_blocks nth_error].
      destruct (case_trace_shape (oracle k) ep tc0) as (body & -> & _).
      eexists. reflexivity.
    + cbn [run_blocks nth_error]. apply IH. exact Hj.
Qed.

(** The block of a position does not feel what another position meets. *)
Lemma run_blocks_override i env cases :
  forall k j,
    (k + j)%nat <> i ->
    nth_error (run_blocks (override oracle i env) ep k cases) j =
    nth_error (run_blocks oracle ep k cases) j.
Proof.
  induction cases as [|tc rest IH]; intros k j Hne; [reflexivity|].
  destruct j as [|j]; cbn [run_blocks nth_error].
  - unfold override. rewrite Nat.add_0_r in Hne.
    apply Nat.eqb_neq in Hne. rewrite Hne. reflexivity.
  - apply IH. lia.
Qed.

End Loop.

(** ** [main] *)

Lemma closing_frame w : closing w = (Ok tt, advance w (map Print closing_lines) 0).
Proof.
  unfold closing, bind, print, emit, advance. cbn.
  rewrite <- !app_assoc, Nat.add_0_r. reflexivity.
Qed.

Lemma banner_frame w : banner w = (Ok tt, advance w (map Print banner_lines) 0).
Proof.
  unfold banner, bind, print, emit, advance. cbn [trace open_conns map banner_lines].
  rewrite <- !app_assoc, Nat.add_0_r. reflexivity.
Qed.

(** [main] is its banner, the loop over [catalogue] against the default
    endpoint, and the closing lines. *)
Lemma main_is_loop oracle w :
  main oracle w = (banner ;; run_cases oracle default_endpoint 0 catalogue ;; closing) w.
Proof.
  unfold main, banner, closing. cbn [run_cases catalogue].
  unfold submit.
  cbn [ep_host ep_port default_endpoint tc_name tc_from_address tc_to_address
       tc_subject tc_body].
  unfold bind, print, sleep, emit, ret. cbv beta iota.
  repeat match goal with
  | |- context [send_test_email ?a ?b ?c ?d ?e ?f ?g ?h ?v] =>
      destruct (send_test_email a b c d e f g h v) as [[?|?] ?]; cbv beta iota
  end; reflexivity.
Qed.

Lemma main_frame oracle w :
  main oracle w =
  (Ok tt,
   advance w
     (map Print banner_lines ++ run_trace oracle default_endpoint 0 catalogue ++
      map Print closing_lines)
     (run_leak oracle default_endpoint 0 catalogue)).
Proof.
  rewrite main_is_loop. unfold bind at 1. rewrite banner_frame.
  unfold bind at 1. rewrite run_cases_frame, closing_frame, !advance_advance.
  f_equal. f_equal; lia.
Qed.

Lemma main_blocks oracle :
  blocks (map Print banner_lines ++ run_trace oracle default_endpoint 0 catalogue ++
          map Print closing_lines) =
  map Print banner_lines ::
  extend_last (map Print closing_lines) (run_blocks oracle default_endpoint 0 catalogue).
Proof.
  rewrite (blocks_quiet_app (map Print banner_lines)) by reflexivity.
  rewrite (blocks_app_quiet _ (map Print closing_lines)) by reflexivity.
  rewrite run_trace_blocks. cbn [catalogue run_blocks extend_last hd tl].
  rewrite app_nil_r. reflexivity.
Qed.

(** ** Sample runs *)

Example cooperative_phishing_stdout :
  stdout (case_trace cooperative default_endpoint phishing_case) =
  [ (LF ++ "TESTING Suspicious Phishing Email")%string;
    "   From: security@bank-fake.com"%string;
    "   To: customer@example.com"%string;
    "   Subject: URGENT: Account Security Alert"%string;
    "   COMPLETED Email sent successfully"%string ].
Proof. reflexivity. Qed.

Example refusing_phishing_stdout :
  stdout (case_trace refusing default_endpoint phishing_case) =
  [ (LF ++ "TESTING Suspicious Phishing Email")%string;
    "   From: security@bank-fake.com"%string;
    "   To: customer@example.com"%string;
    "   Subject: URGENT: Account Security Alert"%string;
    "   FAILED Failed to send email: [Errno 111] Connection refused"%string ].
Proof. reflexivity. Qed.

Example main_third_case_refused :
  reports (trace (snd (main (override (fun _ => cooperative) 2 refusing) empty_world))) =
  [ Announced "Legitimate Business Email"; Succeeded;
    Announced "Newsletter Email"; Succeeded;
    Announced "Suspicious Phishing Email";
    Failed "Failed to send email: [Errno 111] Connection refused";
    Announced "Malware Delivery Attempt"; Succeeded;
    Announced "Social Engineering Attempt"; Succeeded ].
Proof. vm_compute. reflexivity. Qed.

Example main_pauses_four_times :
  length (filter (fun ev => match ev with Sleep 1 => true | _ => false end)
            (trace (snd (main (fun _ => cooperative) empty_world)))) = 4%nat.
Proof. vm_compute. reflexivity. Qed.

(** ** The text of a message: writing and reading back *)

Lemma split_lines_from_inhabited a s : exists l ls, split_lines_from a s = l :: ls.
Proof.
  revert a. induction s as [|c s IH]; intros a; cbn; [eauto|].
  destruct (Ascii.eqb c LF_char).
  - destruct a; [apply IH|eauto].
  - destruct (Ascii.eqb c CR_char); [eauto|].
    destruct (IH false) as (l & ls & ->). eauto.
Qed.

Lemma split_one_line l : line_free l = true -> split_lines l = [l].
Proof.
  unfold split_lines. induction l as [|c l IH]; cbn; [reflexivity|].
  intros H. apply andb_prop in H. destruct H as [H Hl].
  apply andb_prop in H. destruct H as [Hlf Hcr].
  apply negb_true_iff in Hlf, Hcr. rewrite Hlf, Hcr, (IH Hl). reflexivity.
Qed.

Lemma split_first_line l rest :
  line_free l = true ->
  split_lines (l ++ LF ++ rest) = l :: split_lines rest.
Proof.
  unfold split_lines. induction l as [|c l IH]; cbn; [reflexivity|].
  intros H. apply andb_prop in H. destruct H as [H Hl].
  apply andb_prop in H. destruct H as [Hlf Hcr].
  apply negb_true_iff in Hlf, Hcr. rewrite Hlf, Hcr.
  cbn in IH. rewrite (IH Hl). reflexivity.
Qed.

Lemma split_join_lines ls :
  ls <> [] -> forallb line_free ls = true -> split_lines (join_lines ls) = ls.
Proof.
  induction ls as [|l rest IH]; intros Hne Hfree; [contradiction|].
  cbn in Hfree. apply andb_prop in Hfree. destruct Hfree as [Hl Hrest].
  destruct rest as [|l' rest'].
  - cbn. apply split_one_line. exact Hl.
  - change (join_lines (l :: l' :: rest')) with (l ++ LF ++ join_lines (l' :: rest'))%string.
    rewrite (split_first_line _ _ Hl), IH; [reflexivity|discriminate|exact Hrest].
Qed.

Lemma join_split_lines s : no_CR s = true -> join_lines (split_lines s) = s.
Proof.
  unfold split_lines. induction s as [|c s IH]; cbn; [reflexivity|].
  intros H. apply andb_prop in H. destruct H as [Hcr Hs].
  apply negb_true_iff in Hcr. specialize (IH Hs).
  destruct (split_lines_from_inhabited false s) as (l & ls & Hsplit).
  rewrite Hsplit in IH |- *.
  destruct (Ascii.eqb_spec c LF_char) as [->|_].
  - change (join_lines (EmptyString :: l :: ls))
      with (EmptyString ++ LF ++ join_lines (l :: ls))%string.
    rewrite IH. reflexivity.
  - rewrite Hcr. destruct ls as [|l' ls'].
    + cbn in IH |- *. rewrite IH. reflexivity.
    + change (join_lines (String c l :: l' :: ls'))
        with (String c (l ++ LF ++ join_lines (l' :: ls')))%string.
      change (join_lines (l :: l' :: ls'))
        with (l ++ LF ++ join_lines (l' :: ls'))%string in IH.
      rewrite IH. reflexivity.
Qed.

Lemma split_lines_free s : forall a, forallb line_free (split_lines_from a s) = true.
Proof.
  induction s as [|c s IH]; intros a; cbn; [reflexivity|].
  destruct (Ascii.eqb c LF_char) eqn:Hlf.
  - destruct a; [apply IH|]. cbn. apply IH.
  - destruct (Ascii.eqb c CR_char) eqn:Hcr; [cbn; apply IH|].
    specialize (IH false).
    destruct (split_lines_from false s) as [|l ls]; cbn; [rewrite Hlf, Hcr; reflexivity|].
    cbn in IH. rewrite Hlf, Hcr. exact IH.
Qed.

Lemma line_free_app a b : line_free (a ++ b) = line_free a && line_free b.
Proof.
  induction a as [|c a IH]; cbn; [reflexivity|].
  rewrite IH, andb_assoc. reflexivity.
Qed.

Lemma printable_line_free s : printable s = true -> line_free s = true.
Proof.
  induction s as [|c s IH]; cbn; [reflexivity|].
  intros H. apply andb_prop in H. destruct H as [Hc Hs]. rewrite (IH Hs).
  destruct (Ascii.eqb_spec c LF_char) as [->|_]; [discriminate Hc|].
  destruct (Ascii.eqb_spec c CR_char) as [->|_]; [discriminate Hc|]. reflexivity.
Qed.

Lemma boundary_line_free s : boundary_text s = true -> line_free s = true.
Proof.
  induction s as [|c s IH]; cbn; [reflexivity|].
  intros H. apply andb_prop in H. destruct H as [Hc Hs]. rewrite (IH Hs).
  destruct (Ascii.eqb_spec c LF_char) as [->|_]; [discriminate Hc|].
  destruct (Ascii.eqb_spec c CR_char) as [->|_]; [discriminate Hc|]. reflexivity.
Qed.

Lemma name_char_not_colon c : name_char c = true -> Ascii.eqb c ":"%char = false.
Proof.
  destruct (Ascii.eqb_spec c ":"%char) as [->|_]; [discriminate|reflexivity].
Qed.

Lemma name_char_not_blank c : name_char c = true -> is_blank c = false.
Proof.
  unfold is_blank.
  destruct (Ascii.eqb_spec c " "%char) as [->|_]; [discriminate|].
  destruct (Ascii.eqb_spec c "009"%char) as [->|_]; [discriminate|reflexivity].
Qed.

Lemma lstrip_id v : starts_blank v = false -> lstrip v = v.
Proof. destruct v as [|c v]; cbn; [reflexivity|]. intros ->. reflexivity. Qed.

Lemma render_header_parses h :
  header_ok h = true ->
  starts_blank (render_header h) = false /\
  split_header (render_header h) = Some (fst h, (" " ++ snd h)%string) /\
  lstrip (" " ++ snd h) = snd h.
Proof.
  destruct h as [n v]. unfold header_ok, render_header. cbn [fst snd].
  intros H. apply andb_prop in H. destruct H as [H Hv].
  apply andb_prop in H. destruct H as [Hne Hn].
  apply negb_true_iff in Hv.
  split; [|split].
  - destruct n as [|c n]; [discriminate Hne|]. cbn in Hn |- *.
    apply andb_prop in Hn. apply name_char_not_blank. apply Hn.
  - clear Hne. induction n as [|c n IH]; cbn; [reflexivity|].
    cbn in Hn. apply andb_prop in Hn. destruct Hn as [Hc Hn].
    specialize (IH Hn). cbn in IH.
    rewrite (name_char_not_colon _ Hc), Hc, IH. reflexivity.
  - cbn. apply lstrip_id. exact Hv.
Qed.

(** The header block that the generator writes is read back header for
    header. *)
Lemma parse_rendered_headers hs :
  forallb header_ok hs = true ->
  forall cur rest,
    parse_headers_from cur (map render_header hs ++ EmptyString :: rest) =
    (flush cur ++ hs, rest).
Proof.
  induction hs as [|h hs IH]; intros Hok cur rest.
  - cbn. rewrite app_nil_r. reflexivity.
  - cbn in Hok. apply andb_prop in Hok. destruct Hok as [Hh Hhs].
    destruct (render_header_parses h Hh) as (Hstart & Hsplit & Hstrip).
    cbn [map app parse_headers_from]. rewrite Hstart, Hsplit, Hstrip.
    rewrite (IH Hhs). cbn [flush]. destruct h. reflexivity.
Qed.

Lemma drop_closing_quote_app b : drop_closing_quote (b ++ DQ) = Some b.
Proof.
  induction b as [|c b IH]; [reflexivity|].
  cbn [append drop_closing_quote]. rewrite IH.
  destruct b; reflexivity.
Qed.

Lemma strip_prefix_self p : strip_prefix p p = Some EmptyString.
Proof.
  induction p as [|c p IH]; cbn; [reflexivity|].
  rewrite Ascii.eqb_refl. exact IH.
Qed.

Lemma boundary_line_opening b : boundary_line b ("--" ++ b) = Some false.
Proof. unfold boundary_line. cbn. rewrite strip_prefix_self. reflexivity. Qed.

Lemma boundary_line_closing b : boundary_line b ("--" ++ b ++ "--") = Some true.
Proof. unfold boundary_line. cbn. rewrite strip_prefix_app. reflexivity. Qed.

Lemma collect_one_part b ls :
  forall cur closing rest,
    forallb (fun l => match boundary_line b l with
                      | None => true
                      | Some _ => false
                      end) ls = true ->
    boundary_line b closing = Some true ->
    collect_parts b cur (ls ++ closing :: rest) = [cur ++ ls].
Proof.
  induction ls as [|l ls IH]; intros cur closing rest Hls Hclose.
  - cbn. rewrite Hclose, app_nil_r. reflexivity.
  - cbn in Hls. apply andb_prop in Hls. destruct Hls as [Hl Hls].
    cbn [app collect_parts].
    destruct (boundary_line b l); [discriminate Hl|].
    rewrite (IH _ _ _ Hls Hclose), <- app_assoc. reflexivity.
Qed.

(** What the generator writes for the message of a case with an ASCII body,
    read back: the four fields, provided the header values are printable
    with no blank at either end, the body holds no carriage return, and no
    line of the body is a boundary line. *)
Lemma read_back_generated b f t s body :
  boundary_text b = true ->
  plain_header f = true -> plain_header t = true -> plain_header s = true ->
  plain_body body = true ->
  fresh b body = true ->
  read_back (generate b (message_for f t s body)) = Some (f, t, s, body).
Proof.
  intros Hb Hf Ht Hs Hbody Hfresh.
  unfold plain_body in Hbody. apply andb_prop in Hbody. destruct Hbody as [Hascii Hcr].
  assert (Hparts : forall v, plain_header v = true ->
                     printable v = true /\ starts_blank v = false).
  { intros v Hv. unfold plain_header in Hv.
    apply andb_prop in Hv. destruct Hv as [Hv _].
    apply andb_prop in Hv. destruct Hv as [Hp Hsb].
    apply negb_true_iff in Hsb. split; assumption. }
  destruct (Hparts f Hf) as [Hfp Hfb], (Hparts t Ht) as [Htp Htb],
           (Hparts s Hs) as [Hsp Hsb]. clear Hparts.
  pose proof (printable_line_free _ Hfp) as Hfl.
  pose proof (printable_line_free _ Htp) as Htl.
  pose proof (printable_line_free _ Hsp) as Hsl.
  pose proof (boundary_line_free _ Hb) as Hbl.
  set (top := [ ("Content-Type", "multipart/mixed; boundary=" ++ DQ ++ b ++ DQ);
                ("MIME-Version", "1.0"); ("From", f); ("To", t); ("Subject", s) ]
              %string).
  set (inner := [ ("Content-Type", "text/plain; charset=" ++ DQ ++ "us-ascii" ++ DQ);
                  ("MIME-Version", "1.0");
                  ("Content-Transfer-Encoding", "7bit") ]%string).
  set (part := map render_header inner ++ EmptyString :: split_lines body).
  assert (Hgen : generate b (message_for f t s body) =
                 join_lines (map render_header top ++
                             EmptyString :: (("--" ++ b)%string :: part) ++
                             [("--" ++ b ++ "--")%string; EmptyString])).
  { unfold generate, message_for, text_part. rewrite Hascii.
    cbn [payloads attach setitem new_multipart headers flat_map app].
    rewrite app_nil_r. reflexivity. }
  unfold read_back, message_from_string. rewrite Hgen.
  rewrite split_join_lines.
  2:{ discriminate. }
  2:{ unfold part, top, inner, render_header.
      cbn [map app forallb fst snd]. rewrite forallb_app.
      unfold split_lines at 1. rewrite split_lines_free. cbn [forallb].
      rewrite !line_free_app, Hbl, Hfl, Htl, Hsl. reflexivity. }
  unfold parse_headers. rewrite parse_rendered_headers.
  2:{ cbn [forallb top]. unfold header_ok. cbn [fst snd]. rewrite Hfb, Htb, Hsb.
      reflexivity. }
  cbn [flush app].
  assert (Hbo : boundary_of top = Some b).
  { unfold boundary_of. cbn [top lookup_header].
    change (String.eqb (lower "Content-Type") (lower "Content-Type")) with true.
    cbv iota.
    change ("multipart/mixed; boundary=" ++ DQ ++ b ++ DQ)%string
      with (("multipart/mixed; boundary=" ++ DQ) ++ b ++ DQ)%string.
    rewrite strip_prefix_app. apply drop_closing_quote_app. }
  rewrite Hbo. cbn [skip_preamble app]. rewrite boundary_line_opening.
  rewrite (collect_one_part b part [] _ _).
  3:{ apply boundary_line_closing. }
  2:{ unfold part, inner, render_header, boundary_line.
      cbn [map app forallb fst snd append strip_prefix].
      exact Hfresh. }
  assert (Hpart : parse_part ([] ++ part) =
                  {| part_headers := inner; part_payload := body |}).
  { unfold parse_part, parse_headers, part. cbn [app].
    rewrite parse_rendered_headers by reflexivity.
    rewrite (join_split_lines _ Hcr). reflexivity. }
  cbn [map]. rewrite Hpart. reflexivity.
Qed.

Lemma generate_plain b f t s body :
  is_ascii body = true ->
  generate b (message_for f t s body) = join_lines (plain_text_lines b f t s body).
Proof.
  intros Hascii. unfold generate, message_for, text_part. rewrite Hascii.
  cbn [payloads attach setitem new_multipart headers flat_map app].
  rewrite app_nil_r. reflexivity.
Qed.

(** What a call hands to [sendmail] is what [as_string] returned for the
    message of the case, and a call that succeeds has handed it over. *)
Lemma case_payloads env ep tc :
  (forall text,
     In text (payloads_sent (case_trace env ep tc)) ->
     as_string_result env
       (message_for (tc_from_address tc) (tc_to_address tc) (tc_subject tc) (tc_body tc))
     = Ok text) /\
  (case_fault env ep tc = None ->
   exists text,
     as_string_result env
       (message_for (tc_from_address tc) (tc_to_address tc) (tc_subject tc) (tc_body tc))
     = Ok text /\
     payloads_sent (case_trace env ep tc) = [text]).
Proof.
  destruct ep as [h p], tc as [n f t s b]. cbn [tc_from_address tc_to_address tc_subject tc_body].
  unfold_script. cbn.
  split_stages env; cbn; split; intros; try discriminate; try contradiction.
  all: repeat match goal with
       | H : _ \/ _ |- _ => destruct H as [H|H]
       | H : False |- _ => destruct H
       end; subst; try reflexivity.
  all: eexists; split; reflexivity.
Qed.

(** ** A console that may fail *)





(** On a console that never fails the call is [send_test_email]. *)
Lemma send_test_email_on_working_console env h p f t s b n w :
  send_test_email_on working_console env h p f t s b n w =
  send_test_email env h p f t s b n w.
Proof. reflexivity. Qed.


(** ** The claims *)

(** C1. Whatever the catalogue and whatever the libraries answer, the run
    returns normally and the reports it prints are, case by case and in
    catalogue order, the announcement of the case followed by exactly one
    outcome: the COMPLETED line, or the FAILED line with the text of the
    exception when the attempt failed.  The same holds of [main] on its
    five cases. *)
Theorem one_outcome_per_case :
  (forall oracle ep cases w,
     exists new leak,
       run_cases oracle ep 0 cases w = (Ok tt, advance w new leak) /\
       reports new = expected_reports oracle ep 0 cases /\
       announced (reports new) = map tc_name cases /\
       length (outcomes (reports new)) = length cases) /\
  (forall oracle w,
     exists new leak,
       main oracle w = (Ok tt, advance w new leak) /\
       reports new = expected_reports oracle default_endpoint 0 catalogue /\
       length (outcomes (reports new)) = 5%nat).
Proof.
  split.
  - intros oracle ep cases w.
    exists (run_trace oracle ep 0 cases), (run_leak oracle ep 0 cases).
    rewrite run_cases_frame, run_trace_reports.
    rewrite expected_reports_announced, expected_reports_outcomes.
    repeat split.
  - intros oracle w.
    eexists _, _. rewrite main_frame. split; [reflexivity|].
    autorewrite with trace_readers.
    cbn [app]. rewrite run_trace_reports, expected_reports_outcomes.
    split; reflexivity.
Qed.

(** C2 fails on the code.  The server accepts the connection and answers
    550 to the recipient: [sendmail] raises, the handler prints the FAILED
    line, and the call returns [False] without a [quit]; the socket it
    opened is still open. *)
Theorem rejected_submission_leaves_connection_open :
  fst (case_run rejecting default_endpoint phishing_case) = Ok false /\
  case_leak rejecting default_endpoint phishing_case = 1%nat /\
  net_events (case_trace rejecting default_endpoint phishing_case) =
    [ SmtpConnect "localhost" 2525 None;
      SmtpSendmail "security@bank-fake.com" ["customer@example.com"]
        (flat_text
           (message_for (tc_from_address phishing_case) (tc_to_address phishing_case)
              (tc_subject phishing_case) (tc_body phishing_case)))
        (Some (Rejected (mkException "(550, b'User unknown')"))) ] /\
  case_leak cooperative default_endpoint phishing_case = 0%nat.
Proof. vm_compute. repeat split. Qed.

(** C3, as the code has it.  The script hands the four fields to the [email]
    package as they are and hands what [as_string] returns to [sendmail] as
    it is.  When the From, To and Subject values are printable ASCII with
    no blank at either end and the body is ASCII without carriage returns,
    the text handed over holds the fields verbatim, on the lines shown by
    [plain_text_lines], and reads back as the four fields. *)
Theorem plain_fields_survive_rendering env boundary ep tc :
  plain_header (tc_from_address tc) = true ->
  plain_header (tc_to_address tc) = true ->
  plain_header (tc_subject tc) = true ->
  plain_body (tc_body tc) = true ->
  boundary_text boundary = true ->
  fresh boundary (tc_body tc) = true ->
  as_string_result env
    (message_for (tc_from_address tc) (tc_to_address tc) (tc_subject tc) (tc_body tc)) =
  Ok (generate boundary
        (message_for (tc_from_address tc) (tc_to_address tc) (tc_subject tc)
           (tc_body tc))) ->
  content_preserved env ep tc /\
  (forall text,
     In text (payloads_sent (case_trace env ep tc)) ->
     text =
     join_lines
       (plain_text_lines boundary (tc_from_address tc) (tc_to_address tc)
          (tc_subject tc) (tc_body tc))) /\
  (case_fault env ep tc = None ->
   payloads_sent (case_trace env ep tc) =
   [ join_lines
       (plain_text_lines boundary (tc_from_address tc) (tc_to_address tc)
          (tc_subject tc) (tc_body tc)) ]) /\
  getitem
    (message_for (tc_from_address tc) (tc_to_address tc) (tc_subject tc) (tc_body tc))
    "From" = Some (tc_from_address tc) /\
  getitem
    (message_for (tc_from_address tc) (tc_to_address tc) (tc_subject tc) (tc_body tc))
    "To" = Some (tc_to_address tc) /\
  getitem
    (message_for (tc_from_address tc) (tc_to_address tc) (tc_subject tc) (tc_body tc))
    "Subject" = Some (tc_subject tc) /\
  map part_payload
    (payloads
       (message_for (tc_from_address tc) (tc_to_address tc) (tc_subject tc)
          (tc_body tc))) = [tc_body tc].
Proof.
  intros Hf Ht Hs Hbody Hb Hfresh Henv.
  assert (Hascii : is_ascii (tc_body tc) = true).
  { unfold plain_body in Hbody. apply andb_prop in Hbody. apply Hbody. }
  destruct (case_payloads env ep tc) as [Hsent Hdone].
  assert (Htext : forall text,
            In text (payloads_sent (case_trace env ep tc)) ->
            text = generate boundary
                     (message_for (tc_from_address tc) (tc_to_address tc)
                        (tc_subject tc) (tc_body tc))).
  { intros text Hin. specialize (Hsent text Hin). congruence. }
  split; [|split; [|split]].
  - intros text Hin. rewrite (Htext text Hin).
    apply read_back_generated; assumption.
  - intros text Hin. rewrite (Htext text Hin). apply generate_plain. exact Hascii.
  - intros Hok. destruct (Hdone Hok) as (text & Has & ->).
    rewrite <- (generate_plain _ _ _ _ _ Hascii). congruence.
  - unfold message_for, text_part. rewrite Hascii. repeat split.
Qed.

(** The phishing case of the catalogue, behind the generator drawing a
    sample boundary: its payload is handed over and reads back as its four
    fields. *)
Lemma plain_fields_survive_rendering_witness :
  content_preserved (rendering sample_boundary) default_endpoint phishing_case /\
  payloads_sent (case_trace (rendering sample_boundary) default_endpoint phishing_case) =
  [ join_lines
      (plain_text_lines sample_boundary (tc_from_address phishing_case)
         (tc_to_address phishing_case) (tc_subject phishing_case)
         (tc_body phishing_case)) ].
Proof.
  pose proof (plain_fields_survive_rendering (rendering sample_boundary) sample_boundary
                default_endpoint phishing_case
                eq_refl eq_refl eq_refl eq_refl eq_refl eq_refl eq_refl) as H.
  split; [exact (proj1 H)|].
  exact (proj1 (proj2 (proj2 H)) eq_refl).
Defined.

(** C3, as the claim has it, fails.  With a blank in front of the subject,
    the subject reads back without it; with an accented letter in the body,
    the part is sent base64-encoded and the payload read back is that
    encoding, not the body. *)
Lemma rendering_alters_blank_and_accented_fields :
  ~ content_preserved (rendering sample_boundary) default_endpoint blank_subject_case /\
  ~ content_preserved (rendering sample_boundary) default_endpoint accented_body_case.
Proof.
  split; intros H.
  - specialize (H (generate sample_boundary
                     (message_for (tc_from_address blank_subject_case)
                        (tc_to_address blank_subject_case)
                        (tc_subject blank_subject_case)
                        (tc_body blank_subject_case)))).
    assert (Hin : In (generate sample_boundary
                        (message_for (tc_from_address blank_subject_case)
                           (tc_to_address blank_subject_case)
                           (tc_subject blank_subject_case)
                           (tc_body blank_subject_case)))
                     (payloads_sent
                        (case_trace (rendering sample_boundary) default_endpoint
                           blank_subject_case))).
    { left. reflexivity. }
    specialize (H Hin). vm_compute in H. discriminate H.
  - specialize (H (generate sample_boundary
                     (message_for (tc_from_address accented_body_case)
                        (tc_to_address accented_body_case)
                        (tc_subject accented_body_case)
                        (tc_body accented_body_case)))).
    assert (Hin : In (generate sample_boundary
                        (message_for (tc_from_address accented_body_case)
                           (tc_to_address accented_body_case)
                           (tc_subject accented_body_case)
                           (tc_body accented_body_case)))
                     (payloads_sent
                        (case_trace (rendering sample_boundary) default_endpoint
                           accented_body_case))).
    { left. reflexivity. }
    specialize (H Hin). vm_compute in H. discriminate H.
Qed.

(** What the two cases read back as. *)
Example altered_fields_read_back :
  read_back
    (generate sample_boundary
       (message_for "security@bank-fake.com" "customer@example.com"
          " URGENT: Account Security Alert"
          "Click here: http://fake-bank-security.com/login")) =
  Some ("security@bank-fake.com"%string, "customer@example.com"%string,
        "URGENT: Account Security Alert"%string,
        "Click here: http://fake-bank-security.com/login"%string) /\
  read_back
    (generate sample_boundary
       (message_for "security@bank-fake.com" "customer@example.com"
          "URGENT: Account Security Alert" ("R" ++ e_acute ++ "ponse requise"))) =
  Some ("security@bank-fake.com"%string, "customer@example.com"%string,
        "URGENT: Account Security Alert"%string,
        ("UsOpcG9uc2UgcmVxdWlzZQ==" ++ LF)%string).
Proof. split; vm_compute; reflexivity. Qed.

(** C4. Put any environment, for instance one in which the submission
    fails, at position [i], the libraries answering the other positions as
    before.  The run still returns normally and still has one block of
    effects per case, each starting with the announcement of its case; and
    the block of every other position, with its outcome line and the
    message it submits, is the one of the run in which position [i] was
    left alone.  The same holds of [main], which is this loop on
    [catalogue] between its banner and its closing lines: it still returns
    normally with its five announcements and five outcomes, and the blocks
    of the other cases are unchanged. *)
Theorem failure_does_not_abort_or_leak_into_other_cases oracle ep cases w i env_i :
  exists new leak new' leak',
    run_cases oracle ep 0 cases w = (Ok tt, advance w new leak) /\
    run_cases (override oracle i env_i) ep 0 cases w = (Ok tt, advance w new' leak') /\
    length (blocks new') = S (length cases) /\
    (forall j tc,
       nth_error cases j = Some tc ->
       exists rest,
         nth_error (blocks new') (S j) =
         Some (Print (LF ++ "TESTING " ++ tc_name tc) :: rest)) /\
    (forall j, j <> i -> nth_error (blocks new') (S j) = nth_error (blocks new) (S j)) /\
    (exists shown leak1 shown' leak2,
       main oracle w = (Ok tt, advance w shown leak1) /\
       main (override oracle i env_i) w = (Ok tt, advance w shown' leak2) /\
       announced (reports shown') = map tc_name catalogue /\
       length (outcomes (reports shown')) = 5%nat /\
       (forall j, j <> i ->
          nth_error (blocks shown') (S j) = nth_error (blocks shown) (S j))).
Proof.
  exists (run_trace oracle ep 0 cases), (run_leak oracle ep 0 cases).
  exists (run_trace (override oracle i env_i) ep 0 cases),
         (run_leak (override oracle i env_i) ep 0 cases).
  rewrite !run_cases_frame, !run_trace_blocks.
  repeat split.
  - cbn [length]. rewrite run_blocks_length. reflexivity.
  - intros j tc Hj. cbn [nth_error]. apply run_blocks_announce. exact Hj.
  - intros j Hne. cbn [nth_error]. apply run_blocks_override. exact Hne.
  - eexists _, _, _, _. rewrite !main_frame.
    split; [reflexivity|]. split; [reflexivity|].
    rewrite !main_blocks. autorewrite with trace_readers. cbn [app].
    rewrite run_trace_reports, expected_reports_announced, expected_reports_outcomes.
    split; [reflexivity|]. split; [reflexivity|].
    intros j Hne. cbn [nth_error].
    rewrite !nth_error_extend_last, !run_blocks_length.
    rewrite run_blocks_override by exact Hne. reflexivity.
Qed.

(** C5. [send_test_email] returns [True] exactly when the connection, the
    [sendmail] exchange (envelope and data) and [quit] have all returned
    normally; then the outcome line is the COMPLETED one and no error detail
    is printed.  Otherwise it returns [False], and the outcome line carries
    one error detail, a non-empty text that ends with [str(e)] for the
    exception [e] that ended the attempt. *)
Theorem outcome_tells_whether_sequence_completed
    env smtp_host smtp_port from_addr to_addr subject body test_name w :
  exists ok new leak,
    send_test_email env smtp_host smtp_port from_addr to_addr subject body test_name w =
      (Ok ok, advance w new leak) /\
    (ok = true <->
     exists text,
       net_events new =
       [ SmtpConnect smtp_host smtp_port None;
         SmtpSendmail from_addr [to_addr] text None;
         SmtpQuit None ]) /\
    (ok = true ->
     first_fault env smtp_host smtp_port from_addr to_addr subject body = None /\
     reports new = [Announced test_name; Succeeded] /\
     error_details (reports new) = []) /\
    (ok = false ->
     exists e,
       first_fault env smtp_host smtp_port from_addr to_addr subject body = Some e /\
       reports new = [Announced test_name; Failed (failure_detail e)] /\
       error_details (reports new) = [("Failed to send email: " ++ str e)%string] /\
       failure_detail e <> EmptyString).
Proof.
  eexists _, _, _. split.
  { rewrite send_test_email_frame at 1. rewrite send_test_email_result. reflexivity. }
  unfold_script. cbn.
  split_stages env; cbn.
  all: repeat split; intros; try discriminate; try reflexivity.
  all: try (eexists; reflexivity).
  all: try match goal with H : exists _, _ = _ |- _ => destruct H; discriminate end.
  all: try (eexists; repeat split; try reflexivity; discriminate).
Qed.

(** C6, as the code has it.  The script checks no endpoint: whatever host
    and port it is given, valid or not, every case is announced, every
    connection attempt is made with exactly that host and port, one per
    case whose message could be built, and the run returns normally.  A
    connection that the transport refuses is reported as the failure of the
    case that attempted it.  [main] itself only ever uses
    [localhost:2525]. *)
Theorem endpoint_is_never_validated :
  (forall oracle ep cases w,
     exists new leak,
       run_cases oracle ep 0 cases w = (Ok tt, advance w new leak) /\
       announced (reports new) = map tc_name cases /\
       length (outcomes (reports new)) = length cases /\
       (forall hp, In hp (connect_attempts new) -> hp = (ep_host ep, ep_port ep))) /\
  (forall env ep tc,
     connect_attempts (case_trace env ep tc) =
     match MIMEText_fault env (tc_body tc) "plain" with
     | None => [(ep_host ep, ep_port ep)]
     | Some _ => []
     end) /\
  (forall env ep tc e,
     MIMEText_fault env (tc_body tc) "plain" = None ->
     connect_fault env (ep_host ep) (ep_port ep) = Some e ->
     reports (case_trace env ep tc) = [Announced (tc_name tc); Failed (failure_detail e)]) /\
  (forall oracle w,
     exists new leak,
       main oracle w = (Ok tt, advance w new leak) /\
       (forall hp, In hp (connect_attempts new) -> hp = ("localhost"%string, 2525))) /\
  valid_port (ep_port default_endpoint) = true.
Proof.
  split; [|split; [|split; [|split]]]; [| | | |reflexivity].
  - intros oracle ep cases w.
    exists (run_trace oracle ep 0 cases), (run_leak oracle ep 0 cases).
    rewrite run_cases_frame, run_trace_reports.
    rewrite expected_reports_announced, expected_reports_outcomes.
    repeat split. apply run_trace_connects.
  - apply case_connects.
  - intros env ep tc e Hbuilt Hrefused.
    rewrite case_reports. unfold outcome_report, case_fault, first_fault.
    rewrite Hbuilt, Hrefused. reflexivity.
  - intros oracle w. eexists _, _. rewrite main_frame. split; [reflexivity|].
    intros hp Hin. autorewrite with trace_readers in Hin.
    cbn [map banner_lines closing_lines connect_attempts app] in Hin.
    apply run_trace_connects in Hin. exact Hin.
Qed.

(** C6, as the specification has it, fails.  With port 70000 and a transport
    that refuses such a port, the five cases of the catalogue are all
    announced and five connections are attempted: the run is not halted
    before the first case. *)
Lemma invalid_endpoint_does_not_halt_run :
  ~ invalid_endpoint_halts_run (fun _ => port_checking) out_of_range_endpoint catalogue.
Proof.
  unfold invalid_endpoint_halts_run. intros H.
  destruct (H eq_refl) as [Hannounced _].
  vm_compute in Hannounced. discriminate Hannounced.
Qed.

(** C7. Every [sendmail] call of a submission names the case's
    [from_address] as sender and the one-element list holding its
    [to_address] as recipients, and a submission makes at most that one
    call. *)
Theorem envelope_is_sender_and_sole_recipient env ep tc sender rcpts text fault :
  In (SmtpSendmail sender rcpts text fault) (case_trace env ep tc) ->
  sender = tc_from_address tc /\
  rcpts = [tc_to_address tc] /\
  envelopes (case_trace env ep tc) = [(tc_from_address tc, [tc_to_address tc])].
Proof.
  destruct ep as [h p], tc as [n f t s b].
  unfold_script. cbn.
  split_stages env; cbn; intros H.
  all: pick_event.
  all: repeat split.
Qed.

(** The phishing case of the catalogue, submitted to a listener that
    accepts everything, is a run in which [sendmail] is called. *)
Lemma envelope_is_sender_and_sole_recipient_witness :
  In (SmtpSendmail "security@bank-fake.com" ["customer@example.com"]
        (flat_text
           (message_for (tc_from_address phishing_case) (tc_to_address phishing_case)
              (tc_subject phishing_case) (tc_body phishing_case)))
        None)
     (case_trace cooperative default_endpoint phishing_case) /\
  envelopes (case_trace cooperative default_endpoint phishing_case) =
    [("security@bank-fake.com"%string, ["customer@example.com"%string])].
Proof.
  assert (H : In (SmtpSendmail "security@bank-fake.com" ["customer@example.com"]
        (flat_text
           (message_for (tc_from_address phishing_case) (tc_to_address phishing_case)
              (tc_subject phishing_case) (tc_body phishing_case)))
        None)
     (case_trace cooperative default_endpoint phishing_case)).
  { vm_compute. do 5 right. left. reflexivity. }
  split; [exact H|].
  exact (proj2 (proj2
    (envelope_is_sender_and_sole_recipient cooperative default_endpoint phishing_case
       _ _ _ _ H))).
Defined.

(** C8. The catalogue that [main] runs is a fixed list of five cases, named
    in this order: legitimate business email, newsletter, phishing, malware
    delivery, social engineering; every field of every case is a non-empty
    string; and [main] announces exactly these names in this order whatever
    the libraries answer. *)
Theorem catalogue_is_five_complete_cases :
  length catalogue = 5%nat /\
  map tc_name catalogue =
    [ "Legitimate Business Email"; "Newsletter Email"; "Suspicious Phishing Email";
      "Malware Delivery Attempt"; "Social Engineering Attempt" ] /\
  forallb all_fields_nonempty catalogue = true /\
  (forall oracle w,
     main oracle w =
     (banner ;; run_cases oracle default_endpoint 0 catalogue ;; closing) w) /\
  (forall oracle w,
     exists new leak,
       main oracle w = (Ok tt, advance w new leak) /\
       announced (reports new) = map tc_name catalogue).
Proof.
  repeat split.
  - apply main_is_loop.
  - intros oracle w. eexists _, _. rewrite main_frame. split; [reflexivity|].
    autorewrite with trace_readers.
    cbn [app]. rewrite run_trace_reports. apply expected_reports_announced.
Qed.



(** C10. [main] drops every result of [send_test_email]: whatever the
    libraries answer to the five submissions, [main] returns normally and
    the last six lines it prints are the closing lines of lines 104-109. *)
Theorem main_completion_ignores_outcomes oracle1 oracle2 w :
  exists body1 leak1 body2 leak2,
    main oracle1 w =
      (Ok tt, advance w (body1 ++ map Print closing_lines) leak1) /\
    main oracle2 w =
      (Ok tt, advance w (body2 ++ map Print closing_lines) leak2) /\
    fst (main oracle1 w) = fst (main oracle2 w).
Proof.
  exists (map Print banner_lines ++ run_trace oracle1 default_endpoint 0 catalogue).
  exists (run_leak oracle1 default_endpoint 0 catalogue).
  exists (map Print banner_lines ++ run_trace oracle2 default_endpoint 0 catalogue).
  exists (run_leak oracle2 default_endpoint 0 catalogue).
  rewrite !main_frame, <- !app_assoc. repeat split.
Qed.

(** ** Further properties of the script *)

Lemma pauses_app tr1 tr2 : pauses (tr1 ++ tr2) = pauses tr1 ++ pauses tr2.
Proof.
  induction tr1 as [|ev tr1 IH]; [reflexivity|].
  destruct ev; cbn [app pauses]; rewrite IH; reflexivity.
Qed.

Lemma stdout_app tr1 tr2 : stdout (tr1 ++ tr2) = stdout tr1 ++ stdout tr2.
Proof.
  induction tr1 as [|ev tr1 IH]; [reflexivity|].
  destruct ev; cbn [app stdout]; rewrite IH; reflexivity.
Qed.

Lemma envelopes_app tr1 tr2 : envelopes (tr1 ++ tr2) = envelopes tr1 ++ envelopes tr2.
Proof.
  induction tr1 as [|ev tr1 IH]; [reflexivity|].
  destruct ev; cbn [app envelopes]; rewrite IH; reflexivity.
Qed.

Lemma quits_app tr1 tr2 : quits (tr1 ++ tr2) = quits tr1 ++ quits tr2.
Proof.
  induction tr1 as [|ev tr1 IH]; [reflexivity|].
  destruct ev; cbn [app quits]; rewrite IH; reflexivity.
Qed.

Lemma case_pauses env ep tc : pauses (case_trace env ep tc) = [].
Proof.
  destruct ep as [h p], tc as [n f t s b].
  unfold_script. cbn. split_stages env; reflexivity.
Qed.

Lemma case_stdout_length env ep tc : length (stdout (case_trace env ep tc)) = 5%nat.
Proof.
  destruct ep as [h p], tc as [n f t s b].
  unfold_script. cbn. split_stages env; reflexivity.
Qed.

Lemma case_leak_bound env ep tc : (case_leak env ep tc <= 1)%nat.
Proof.
  rewrite case_leak_paths.
  repeat match goal with
  | |- context [match ?x with _ => _ end] => destruct x
  end; lia.
Qed.

(** X1. Whatever the libraries answer, the effects of a call are, in this
    order: the four prints of lines 18-21, then its library calls, then one
    outcome print.  So five lines are printed, and the case is shown before
    anything touches the network. *)
Theorem call_is_header_calls_outcome
    env smtp_host smtp_port from_addr to_addr subject body test_name w :
  exists ok new leak,
    send_test_email env smtp_host smtp_port from_addr to_addr subject body test_name w =
      (Ok ok, advance w new leak) /\
    new =
      header_block from_addr to_addr subject test_name ++
      net_events new ++
      [Print (outcome_line
                (first_fault env smtp_host smtp_port from_addr to_addr subject body))] /\
    length (stdout new) = 5%nat /\
    pauses new = [].
Proof.
  eexists _, _, _. split.
  { rewrite send_test_email_frame at 1. rewrite send_test_email_result. reflexivity. }
  unfold_script. cbn.
  split_stages env; repeat split.
Qed.

(** X2. The library calls of a call follow the order of one SMTP session: at
    most one connection attempt, a [sendmail] only on a connection that was
    opened, a [quit] only after [sendmail] returned, and nothing after a
    call that raised.  In particular nothing is sent when the connection
    fails, and the FAILED line of a failed connection is all that follows
    it. *)
Theorem library_calls_follow_session_order
    env smtp_host smtp_port from_addr to_addr subject body test_name w :
  exists r new leak,
    send_test_email env smtp_host smtp_port from_addr to_addr subject body test_name w =
      (r, advance w new leak) /\
    well_sequenced (net_events new) = true /\
    (length (connect_attempts new) <= 1)%nat /\
    (length (envelopes new) <= 1)%nat /\
    (forall e,
       connect_fault env smtp_host smtp_port = Some e ->
       envelopes new = [] /\ quits new = []) /\
    (forall e,
       MIMEText_fault env body "plain" = Some e -> net_events new = []).
Proof.
  eexists _, _, _. split; [apply send_test_email_frame|].
  unfold_script. cbn.
  split_stages env; cbn; repeat split; intros; try discriminate; lia.
Qed.

(** X3. A call leaves at most one socket open, and none when it returns
    [True], when the connection failed, or when [quit] was called.  When it
    does leave one open, the connection had been opened, the call returned
    [False], and no [quit] was issued. *)
Theorem call_socket_accounting
    env smtp_host smtp_port from_addr to_addr subject body test_name w :
  exists ok new leak,
    send_test_email env smtp_host smtp_port from_addr to_addr subject body test_name w =
      (Ok ok, advance w new leak) /\
    (leak <= 1)%nat /\
    (ok = true -> leak = 0%nat) /\
    (quits new <> [] -> leak = 0%nat) /\
    (connect_fault env smtp_host smtp_port <> None -> leak = 0%nat) /\
    (leak = 1%nat ->
     ok = false /\
     connect_attempts new = [(smtp_host, smtp_port)] /\
     In (SmtpConnect smtp_host smtp_port None) new /\
     quits new = []).
Proof.
  eexists _, _, _. split.
  { rewrite send_test_email_frame at 1. rewrite send_test_email_result. reflexivity. }
  unfold_script. cbn.
  split_stages env; cbn; repeat split; intros; try discriminate; try lia;
    try congruence.
  all: do 4 right; left; reflexivity.
Qed.

(** X4. When the server has taken the message and only [quit] raises, the
    call still reports FAILED and returns [False]: the message was handed
    over in full, and the socket is closed. *)
Theorem quit_failure_is_reported_after_delivery
    env smtp_host smtp_port from_addr to_addr subject body test_name w text e :
  MIMEText_fault env body "plain" = None ->
  connect_fault env smtp_host smtp_port = None ->
  as_string_result env (message_for from_addr to_addr subject body) = Ok text ->
  sendmail_fault env from_addr [to_addr] text = None ->
  quit_fault env = Some e ->
  exists new,
    send_test_email env smtp_host smtp_port from_addr to_addr subject body test_name w =
      (Ok false, advance w new 0) /\
    net_events new =
      [ SmtpConnect smtp_host smtp_port None;
        SmtpSendmail from_addr [to_addr] text None;
        SmtpQuit (Some e) ] /\
    reports new = [Announced test_name; Failed (failure_detail e)].
Proof.
  intros Hbuild Hconn Htext Hsend Hquit.
  unfold message_for in Htext. cbn in Htext.
  eexists. split.
  { rewrite send_test_email_frame.
    unfold_script. cbn. rewrite Hbuild, Hconn. cbn.
    rewrite Htext. cbn. rewrite Hsend, Hquit. cbn. reflexivity. }
  split; reflexivity.
Qed.

Lemma quit_failure_is_reported_after_delivery_witness :
  exists new,
    send_test_email hanging_up "localhost" 2525
      "security@bank-fake.com" "customer@example.com"
      "URGENT: Account Security Alert" "Click here" "Suspicious Phishing Email"
      empty_world =
      (Ok false, advance empty_world new 0) /\
    net_events new =
      [ SmtpConnect "localhost" 2525 None;
        SmtpSendmail "security@bank-fake.com" ["customer@example.com"]
          (flat_text (message_for "security@bank-fake.com" "customer@example.com"
                        "URGENT: Account Security Alert" "Click here")) None;
        SmtpQuit (Some (mkException "Connection unexpectedly closed")) ] /\
    reports new =
      [ Announced "Suspicious Phishing Email";
        Failed (failure_detail (mkException "Connection unexpectedly closed")) ].
Proof.
  exact (quit_failure_is_reported_after_delivery hanging_up "localhost" 2525
           "security@bank-fake.com" "customer@example.com"
           "URGENT: Account Security Alert" "Click here" "Suspicious Phishing Email"
           empty_world _ _ eq_refl eq_refl eq_refl eq_refl eq_refl).
Defined.

(** X5. The label [test_name] stays on the console: two calls that differ in
    it only make the same library calls with the same arguments, return the
    same result, leave the same sockets, and print the same lines after the
    first. *)
Theorem test_name_is_not_transmitted
    env smtp_host smtp_port from_addr to_addr subject body name1 name2 w :
  exists r new1 new2 leak,
    send_test_email env smtp_host smtp_port from_addr to_addr subject body name1 w =
      (r, advance w new1 leak) /\
    send_test_email env smtp_host smtp_port from_addr to_addr subject body name2 w =
      (r, advance w new2 leak) /\
    net_events new1 = net_events new2 /\
    tl new1 = tl new2.
Proof.
  exists (fst (send_test_email env smtp_host smtp_port from_addr to_addr subject body
                 name1 empty_world)).
  exists (trace (snd (send_test_email env smtp_host smtp_port from_addr to_addr subject
                        body name1 empty_world))).
  exists (trace (snd (send_test_email env smtp_host smtp_port from_addr to_addr subject
                        body name2 empty_world))).
  exists (open_conns (snd (send_test_email env smtp_host smtp_port from_addr to_addr
                             subject body name1 empty_world))).
  split; [apply send_test_email_frame|].
  split.
  { rewrite send_test_email_frame at 1.
    unfold_script. cbn. split_stages env; reflexivity. }
  unfold_script. cbn. split_stages env; split; reflexivity.
Qed.

(** X6. A call reads nothing of what happened before it: started in two
    different worlds it returns the same result and adds the same effects
    and the same number of open sockets, and it keeps the earlier trace. *)
Theorem call_does_not_depend_on_history
    env smtp_host smtp_port from_addr to_addr subject body test_name w1 w2 :
  exists r new leak,
    send_test_email env smtp_host smtp_port from_addr to_addr subject body test_name w1 =
      (r, advance w1 new leak) /\
    send_test_email env smtp_host smtp_port from_addr to_addr subject body test_name w2 =
      (r, advance w2 new leak).
Proof.
  eexists _, _, _. split; [apply send_test_email_frame|].
  rewrite send_test_email_frame at 1. reflexivity.
Qed.

Lemma case_delivered env ep tc :
  case_fault env ep tc = None ->
  envelopes (case_trace env ep tc) = [envelope_of tc] /\
  quits (case_trace env ep tc) = [None] /\
  case_leak env ep tc = 0%nat.
Proof.
  destruct ep as [h p], tc as [n f t s b].
  unfold envelope_of. unfold_script. cbn.
  split_stages env; cbn; intros H; try discriminate H; repeat split.
Qed.

Lemma case_refused env ep tc e :
  MIMEText_fault env (tc_body tc) "plain" = None ->
  connect_fault env (ep_host ep) (ep_port ep) = Some e ->
  case_fault env ep tc = Some e /\
  net_events (case_trace env ep tc) = [SmtpConnect (ep_host ep) (ep_port ep) (Some e)] /\
  envelopes (case_trace env ep tc) = [] /\
  quits (case_trace env ep tc) = [] /\
  case_leak env ep tc = 0%nat.
Proof.
  destruct ep as [h p], tc as [n f t s b]. cbn [tc_body ep_host ep_port].
  intros Hbuild Hconn.
  unfold_script. cbn. rewrite Hbuild, Hconn. repeat split.
Qed.

Section LoopFacts.

Variable oracle : nat -> Env.
Variable ep : Endpoint.

Lemma run_trace_pauses cases :
  forall k, pauses (run_trace oracle ep k cases) = repeat 1 (length cases - 1).
Proof.
  induction cases as [|tc rest IH]; intros k; [reflexivity|].
  cbn [run_trace]. rewrite pauses_app, case_pauses. cbn [app].
  destruct rest as [|tc' rest']; [reflexivity|].
  cbn [pauses]. rewrite IH. cbn [length].
  replace (S (S (length rest')) - 1)%nat with (S (S (length rest') - 1))%nat by lia.
  reflexivity.
Qed.

Lemma run_trace_stdout_length cases :
  forall k, length (stdout (run_trace oracle ep k cases)) = (5 * length cases)%nat.
Proof.
  induction cases as [|tc rest IH]; intros k; [reflexivity|].
  cbn [run_trace]. rewrite stdout_app, length_app, case_stdout_length.
  destruct rest as [|tc' rest']; [reflexivity|].
  cbn [stdout]. rewrite IH. cbn [length]. lia.
Qed.

Lemma run_leak_bound cases :
  forall k, (run_leak oracle ep k cases <= length cases)%nat.
Proof.
  induction cases as [|tc rest IH]; intros k; [reflexivity|].
  cbn [run_leak length].
  pose proof (case_leak_bound (oracle k) ep tc). pose proof (IH (S k)). lia.
Qed.

Lemma run_delivered cases :
  forall k,
    (forall j tc, nth_error cases j = Some tc ->
                  case_fault (oracle (k + j)) ep tc = None) ->
    envelopes (run_trace oracle ep k cases) = map envelope_of cases /\
    quits (run_trace oracle ep k cases) = repeat None (length cases) /\
    outcomes (expected_reports oracle ep k cases) = repeat true (length cases) /\
    run_leak oracle ep k cases = 0%nat.
Proof.
  induction cases as [|tc rest IH]; intros k Hok; [repeat split|].
  assert (Hhere : case_fault (oracle k) ep tc = None).
  { rewrite <- (Nat.add_0_r k). apply Hok. reflexivity. }
  destruct (case_delivered _ _ _ Hhere) as (Henv & Hquit & Hleak).
  destruct (IH (S k)) as (IH1 & IH2 & IH3 & IH4).
  { intros j tc' Hj. replace (S k + j)%nat with (k + S j)%nat by lia.
    apply Hok. exact Hj. }
  cbn [run_trace run_leak expected_reports map length repeat outcomes].
  rewrite envelopes_app, quits_app, Henv, Hquit, Hleak.
  unfold outcome_report. rewrite Hhere. cbn [outcomes app].
  destruct rest as [|tc' rest'].
  - repeat split.
  - cbn [envelopes quits]. rewrite IH1, IH2, IH3, IH4. repeat split.
Qed.

Lemma run_refused cases :
  forall k,
    (forall j tc, nth_error cases j = Some tc ->
                  MIMEText_fault (oracle (k + j)) (tc_body tc) "plain" = None /\
                  connect_fault (oracle (k + j)) (ep_host ep) (ep_port ep) <> None) ->
    envelopes (run_trace oracle ep k cases) = [] /\
    quits (run_trace oracle ep k cases) = [] /\
    connect_attempts (run_trace oracle ep k cases) =
      repeat (ep_host ep, ep_port ep) (length cases) /\
    outcomes (expected_reports oracle ep k cases) = repeat false (length cases) /\
    run_leak oracle ep k cases = 0%nat.
Proof.
  induction cases as [|tc rest IH]; intros k Hko; [repeat split|].
  destruct (Hko 0%nat tc eq_refl) as [Hbuild Hconn].
  rewrite Nat.add_0_r in Hbuild, Hconn.
  destruct (connect_fault (oracle k) (ep_host ep) (ep_port ep)) as [e|] eqn:He;
    [clear Hconn|contradiction].
  destruct (case_refused _ _ _ _ Hbuild He) as (Hfault & _ & Henv & Hquit & Hleak).
  destruct (IH (S k)) as (IH1 & IH2 & IH3 & IH4 & IH5).
  { intros j tc' Hj. replace (S k + j)%nat with (k + S j)%nat by lia.
    apply Hko. exact Hj. }
  cbn [run_trace run_leak expected_reports length repeat outcomes].
  rewrite envelopes_app, quits_app, connect_attempts_app, case_connects.
  rewrite Henv, Hquit, Hleak, Hbuild.
  unfold outcome_report. rewrite Hfault. cbn [outcomes app].
  destruct rest as [|tc' rest'].
  - repeat split.
  - cbn [envelopes quits connect_attempts]. rewrite IH1, IH2, IH3, IH4, IH5.
    repeat split.
Qed.

End LoopFacts.

(** X7. The run pauses one second between two consecutive cases and nowhere
    else, whatever the outcomes: a run over a catalogue pauses once less
    than it has cases, and [main] pauses four times. *)
Theorem pauses_do_not_depend_on_outcomes :
  (forall oracle ep cases w,
     exists new leak,
       run_cases oracle ep 0 cases w = (Ok tt, advance w new leak) /\
       pauses new = repeat 1 (length cases - 1)) /\
  (forall oracle w,
     exists new leak,
       main oracle w = (Ok tt, advance w new leak) /\
       pauses new = [1; 1; 1; 1]).
Proof.
  split.
  - intros oracle ep cases w. eexists _, _. rewrite run_cases_frame.
    split; [reflexivity|]. apply run_trace_pauses.
  - intros oracle w. eexists _, _. rewrite main_frame.
    split; [reflexivity|].
    rewrite !pauses_app, run_trace_pauses. reflexivity.
Qed.

(** X8. When no library call fails in any of the five submissions, [main]
    reports five successes, hands each message over under the envelope of
    its case, in catalogue order, ends every session with a [quit] that
    returns, and leaves no socket open. *)
Theorem cooperative_run_delivers_every_case oracle w :
  (forall k tc, nth_error catalogue k = Some tc ->
                case_fault (oracle k) default_endpoint tc = None) ->
  exists new,
    main oracle w = (Ok tt, advance w new 0) /\
    outcomes (reports new) = [true; true; true; true; true] /\
    envelopes new = map envelope_of catalogue /\
    quits new = [None; None; None; None; None].
Proof.
  intros Hok.
  destruct (run_delivered oracle default_endpoint catalogue 0 Hok)
    as (Henv & Hquit & Hout & Hleak).
  eexists. rewrite main_frame, Hleak. split; [reflexivity|].
  rewrite !envelopes_app, !quits_app. autorewrite with trace_readers. cbn [app].
  rewrite run_trace_reports, Hout, Henv, Hquit. repeat split.
Qed.

Lemma cooperative_run_delivers_every_case_witness :
  exists new,
    main (fun _ => cooperative) empty_world = (Ok tt, advance empty_world new 0) /\
    outcomes (reports new) = [true; true; true; true; true] /\
    envelopes new = map envelope_of catalogue /\
    quits new = [None; None; None; None; None].
Proof.
  apply (cooperative_run_delivers_every_case (fun _ => cooperative) empty_world).
  intros k tc Hk.
  destruct k as [|[|[|[|[|k]]]]]; cbn in Hk;
    try (injection Hk as <-; reflexivity).
  destruct k; discriminate Hk.
Defined.

(** X9. When every connection attempt of [main] is refused, five failures
    are reported, one attempt per case has been made on [localhost:2525],
    no message is handed over, no [quit] is called and no socket stays
    open. *)
Theorem refused_run_sends_nothing oracle w :
  (forall k tc, nth_error catalogue k = Some tc ->
                MIMEText_fault (oracle k) (tc_body tc) "plain" = None /\
                connect_fault (oracle k) "localhost" 2525 <> None) ->
  exists new,
    main oracle w = (Ok tt, advance w new 0) /\
    outcomes (reports new) = [false; false; false; false; false] /\
    connect_attempts new = repeat ("localhost"%string, 2525) 5 /\
    envelopes new = [] /\
    quits new = [].
Proof.
  intros Hko.
  destruct (run_refused oracle default_endpoint catalogue 0 Hko)
    as (Henv & Hquit & Hconn & Hout & Hleak).
  eexists. rewrite main_frame, Hleak. split; [reflexivity|].
  rewrite !envelopes_app, !quits_app. autorewrite with trace_readers. cbn [app].
  rewrite run_trace_reports, Hout, Henv, Hquit, Hconn. repeat split.
Qed.

Lemma refused_run_sends_nothing_witness :
  exists new,
    main (fun _ => refusing) empty_world = (Ok tt, advance empty_world new 0) /\
    outcomes (reports new) = [false; false; false; false; false] /\
    connect_attempts new = repeat ("localhost"%string, 2525) 5 /\
    envelopes new = [] /\
    quits new = [].
Proof.
  apply (refused_run_sends_nothing (fun _ => refusing) empty_world).
  intros k tc Hk. split; [reflexivity|discriminate].
Defined.

(** X10. The message is serialised only after the connection is up (line
    36 follows line 32): for a host that is not the empty text, when
    [as_string] raises, a connection has been opened all the same, nothing
    is handed over, the call reports FAILED with that exception and returns
    [False], and the socket stays open. *)
Theorem unserialisable_message_costs_a_connection
    env smtp_host smtp_port from_addr to_addr subject body test_name w e :
  smtp_host <> EmptyString ->
  MIMEText_fault env body "plain" = None ->
  connect_fault env smtp_host smtp_port = None ->
  as_string_result env (message_for from_addr to_addr subject body) = Raise e ->
  exists new,
    send_test_email env smtp_host smtp_port from_addr to_addr subject body test_name w =
      (Ok false, advance w new 1) /\
    net_events new = [SmtpConnect smtp_host smtp_port None] /\
    reports new = [Announced test_name; Failed (failure_detail e)].
Proof.
  intros _ Hbuild Hconn Htext.
  unfold message_for in Htext. cbn in Htext.
  eexists. split.
  { rewrite send_test_email_frame.
    unfold_script. cbn. rewrite Hbuild, Hconn. cbn.
    rewrite Htext. cbn. reflexivity. }
  split; reflexivity.
Qed.

Lemma unserialisable_message_costs_a_connection_witness :
  exists new,
    send_test_email unserialisable "localhost" 2525
      "security@bank-fake.com" "customer@example.com"
      "URGENT: Account Security Alert" "Click here" "Suspicious Phishing Email"
      empty_world =
      (Ok false, advance empty_world new 1) /\
    net_events new = [SmtpConnect "localhost" 2525 None] /\
    reports new =
      [ Announced "Suspicious Phishing Email";
        Failed (failure_detail (mkException "header value cannot be written")) ].
Proof.
  exact (unserialisable_message_costs_a_connection unserialisable "localhost" 2525
           "security@bank-fake.com" "customer@example.com"
           "URGENT: Account Security Alert" "Click here" "Suspicious Phishing Email"
           empty_world _ ltac:(discriminate) eq_refl eq_refl eq_refl).
Defined.

(** X11. [main] always prints thirty-three lines: the two banner lines
    first, five lines for each of the five cases, and the six closing
    lines. *)
Theorem main_prints_thirty_three_lines oracle w :
  exists new leak middle,
    main oracle w = (Ok tt, advance w new leak) /\
    stdout new = banner_lines ++ middle ++ closing_lines /\
    length middle = 25%nat /\
    length (stdout new) = 33%nat.
Proof.
  eexists _, _, (stdout (run_trace oracle default_endpoint 0 catalogue)).
  rewrite main_frame. split; [reflexivity|].
  rewrite !stdout_app, !length_app, run_trace_stdout_length.
  repeat split.
Qed.

(** X12. A run never closes a socket that it has not opened and leaves at
    most one socket open per case: after [main] at most five more sockets
    are open than before. *)
Theorem run_leaves_at_most_one_socket_per_case :
  (forall oracle ep cases w,
     exists new leak,
       run_cases oracle ep 0 cases w = (Ok tt, advance w new leak) /\
       (leak <= length cases)%nat) /\
  (forall oracle w,
     exists w',
       main oracle w = (Ok tt, w') /\
       (open_conns w <= open_conns w' <= open_conns w + 5)%nat).
Proof.
  split.
  - intros oracle ep cases w. eexists _, _. rewrite run_cases_frame.
    split; [reflexivity|]. apply run_leak_bound.
  - intros oracle w. eexists. rewrite main_frame. split; [reflexivity|].
    unfold advance. cbn [open_conns].
    pose proof (run_leak_bound oracle default_endpoint catalogue 0) as H.
    cbn [length catalogue] in H. lia.
Qed.
